(** * Electricity consumption analysis: dataset assembly and reporting

    A shallow embedding of [anysis/combined_dataset.py] (the dataset
    assembler) and of [anysis/streamlit_analytics.py] (the dashboard), with
    the properties of the specification stated and proved on it.

    Conventions of the embedding.
    - A number of the data is a binary64 floating-point number, written as
      the rational it denotes ([Q]).  Every arithmetic operation gives the
      exact result rounded to the nearest binary64 number, ties to the even
      mantissa ([round64]); comparisons are exact.  The result of an
      aggregate is a [value], a number or [NaN] (what pandas returns for
      the mean, maximum or standard deviation of nothing).  Infinities, and
      so overflow, and the sign of zero are left out.
    - The aggregates add in the order pandas adds with numpy alone: the
      sum of a column by numpy's pairwise summation, the sum of a group of
      [groupby] by compensated summation.
    - The numeric columns of the table are float64 columns, as [read_csv]
      types a column of readings with a decimal point.
    - A Python exception is an [Err] result carrying the exception class. *)

From Stdlib Require Import ZArith QArith Qpower Qabs List Bool Ascii String Lia.
From Stdlib Require Import Permutation Sorted Lqa.
Import ListNotations.

Local Open Scope string_scope.
Local Open Scope Z_scope.

(** ** Binary64 arithmetic *)

Definition pow2 (p : Z) : Q := (2 ^ p)%Q.

(** The integer nearest to a non-negative rational, ties to the even one. *)
Definition rne (x : Q) : Z :=
  let n := Qnum x in
  let d := Zpos (Qden x) in
  let f := n / d in
  let r := n mod d in
  if 2 * r <? d then f
  else if d <? 2 * r then f + 1
  else if Z.even f then f else f + 1.

(** The exponent [e] with [2^e <= a < 2^(e+1)], for [a > 0]. *)
Definition binade (a : Q) : Z :=
  let e0 := Z.log2 (Qnum a) - Z.log2 (Zpos (Qden a)) in
  if Qle_bool (pow2 e0) a then e0 else e0 - 1.

(** The binary64 number nearest to [a > 0]: a mantissa of 53 bits, or a
    multiple of [2^-1074] below the normal range. *)
Definition round_pos (a : Q) : Q :=
  let p := Z.max (binade a - 52) (-1074) in
  (inject_Z (rne (a / pow2 p)) * pow2 p)%Q.

Definition round64 (q : Q) : Q :=
  Qred (match Qnum q with
        | 0 => 0%Q
        | Zpos _ => round_pos q
        | Zneg _ => (- round_pos (- q))%Q
        end).

(** The relative error of one rounding, [2^-53], and the absolute error
    of one rounding below the normal range, [2^-1075]. *)
Definition eps64 : Q := 1 # 9007199254740992.
Definition tiny64 : Q := pow2 (-1075).

(** The float operations [+], [-], [*] and [/]. *)
Definition fadd (a b : Q) : Q := round64 (a + b).
Definition fsub (a b : Q) : Q := round64 (a - b).
Definition fmul (a b : Q) : Q := round64 (a * b).
Definition fdiv (a b : Q) : Q := round64 (a / b).

(** ** Numbers and their rendering *)

Inductive value : Type :=
| Num (q : Q)
| NaN.

(** Python's comparison [v >= bound]: false as soon as [v] is NaN. *)
Definition ge_num (v : value) (bound : Q) : bool :=
  match v with
  | Num q => Qle_bool bound q
  | NaN => false
  end.

(** Python's float division [v / k]. *)
Definition div_num (v : value) (k : Q) : value :=
  match v with
  | Num q => Num (fdiv q k)
  | NaN => NaN
  end.

Definition digit_char (d : Z) : ascii :=
  ascii_of_nat (48 + Z.to_nat d).

(** Decimal digits of a natural number, most significant first; [fuel]
    bounds the number of digits. *)
Fixpoint digits_fuel (fuel : nat) (n : Z) (acc : string) : string :=
  match fuel with
  | O => acc
  | S fuel' =>
      let acc' := String (digit_char (n mod 10)) acc in
      if n / 10 =? 0 then acc' else digits_fuel fuel' (n / 10) acc'
  end.

Definition string_of_nonneg (n : Z) : string :=
  digits_fuel (S (Z.to_nat (Z.log2 n))) n "".

(** The integer nearest to [q * 100] for [q >= 0], ties going to the even
    neighbour: the rounding of the [.2f] presentation type. *)
Definition round_hundredths (q : Q) : Z :=
  let n := Z.abs (Qnum q) * 100 in
  let d := Zpos (Qden q) in
  let f := n / d in
  let r := n mod d in
  if 2 * r <? d then f
  else if d <? 2 * r then f + 1
  else if Z.even f then f else f + 1.

Definition two_digits (n : Z) : string :=
  String (digit_char (n / 10)) (String (digit_char (n mod 10)) "").

Definition sign_of (q : Q) : string :=
  if Qnum q <? 0 then "-" else "".

(** [f"{v:.2f}"] *)
Definition fmt2 (v : value) : string :=
  match v with
  | Num q =>
      let h := round_hundredths q in
      sign_of q ++ string_of_nonneg (h / 100) ++ "." ++ two_digits (h mod 100)
  | NaN => "nan"
  end.

(** Thousands separators: a comma before every group of three digits
    counted from the right. *)
Fixpoint group3 (s : string) : string :=
  match s with
  | "" => ""
  | String c rest =>
      let tail := group3 rest in
      if andb (Nat.eqb (String.length rest mod 3) 0)
              (negb (Nat.eqb (String.length rest) 0))
      then String c ("," ++ tail) else String c tail
  end.

(** [f"{v:,.2f}"] *)
Definition fmt2_comma (v : value) : string :=
  match v with
  | Num q =>
      let h := round_hundredths q in
      sign_of q ++ group3 (string_of_nonneg (h / 100)) ++ "."
        ++ two_digits (h mod 100)
  | NaN => "nan"
  end.

(** [format_number], lines 9-15 of streamlit_analytics.py. *)
Definition format_number (v : value) : string :=
  if ge_num v 1000000 then fmt2 (div_num v 1000000) ++ "M"
  else if ge_num v 1000 then fmt2 (div_num v 1000) ++ "K"
  else fmt2 v.

(** [s.endswith(suffix)] *)
Definition endswith (s suffix : string) : bool :=
  let n := String.length s in
  let m := String.length suffix in
  (m <=? n)%nat && String.eqb (substring (n - m) m s) suffix.

(** [month_name], lines 18-23. *)
Definition month_name (month_num : Z) : string :=
  match month_num with
  | 1 => "January" | 2 => "February" | 3 => "March" | 4 => "April"
  | 5 => "May" | 6 => "June" | 7 => "July" | 8 => "August"
  | 9 => "September" | 10 => "October" | 11 => "November"
  | 12 => "December"
  | _ => ""
  end.

(** ** Reading a two-decimal text back *)

Definition is_digit (c : ascii) : bool :=
  (48 <=? nat_of_ascii c)%nat && (nat_of_ascii c <=? 57)%nat.

Definition digit_value (c : ascii) : Z := Z.of_nat (nat_of_ascii c) - 48.

(** The number written by the leading digits of [s], continuing [acc], and
    what follows them. *)
Fixpoint read_digits (s : string) (acc : Z) : Z * string :=
  match s with
  | String c rest =>
      if is_digit c then read_digits rest (acc * 10 + digit_value c)
      else (acc, s)
  | "" => (acc, s)
  end.

Definition starts_with_digit (s : string) : bool :=
  match s with
  | String c _ => is_digit c
  | "" => false
  end.

(** The number of hundredths written by a text made of the digits of an
    integer part, without a leading zero, a point and two digits. *)
Definition read_unsigned (body : string) : option Z :=
  match body with
  | String c rest =>
      if is_digit c && negb (Ascii.eqb c "0" && starts_with_digit rest)
      then
        match read_digits body 0 with
        | (whole, String p (String d1 (String d2 ""))) =>
            if Ascii.eqb p "." && is_digit d1 && is_digit d2
            then Some (whole * 100 + digit_value d1 * 10 + digit_value d2)
            else None
        | _ => None
        end
      else None
  | "" => None
  end.

(** A text in fixed two-decimal form: an optional minus sign and an
    unsigned part.  The result is the sign and the number of hundredths
    written. *)
Definition read_fixed2 (s : string) : option (bool * Z) :=
  match s with
  | String c rest =>
      if Ascii.eqb c "-"
      then option_map (pair true) (read_unsigned rest)
      else option_map (pair false) (read_unsigned s)
  | "" => None
  end.

(** ** Exceptions *)

Inductive exn : Type :=
| UnboundLocalError   (* a local name read before any assignment *)
| ValueError          (* argmax / argmin of an empty sequence *)
| IndexError          (* positional access out of bounds *)
| KeyError.           (* label absent from an index *)

Inductive result (A : Type) : Type :=
| Ok (a : A)
| Err (e : exn).
Arguments Ok {A} a.
Arguments Err {A} e.

Definition bind {A B : Type} (r : result A) (k : A -> result B) : result B :=
  match r with
  | Ok a => k a
  | Err e => Err e
  end.

Notation "x <- c ;; k" := (bind c (fun x => k))
  (at level 61, c at next level, right associativity).

Definition raises {A : Type} (r : result A) : Prop :=
  exists e, r = Err e.

(** ** The loaded table *)

Record Timestamp : Type := mkTimestamp {
  ts_year : Z; ts_month : Z; ts_day : Z;
  ts_hour : Z; ts_minute : Z; ts_second : Z
}.

(** A cell of the Year column.  [read_csv] gives the column the type int64
    when every folder name is a number, and keeps the names as text
    otherwise; a column holds cells of one kind only. *)
Inductive year : Type :=
| YearInt (n : Z)
| YearText (s : string).

Definition year_eqb (a b : year) : bool :=
  match a, b with
  | YearInt m, YearInt n => m =? n
  | YearText s, YearText t => String.eqb s t
  | _, _ => false
  end.

(** Integers in numeric order, texts in lexicographic order. *)
Definition year_leb (a b : year) : bool :=
  match a, b with
  | YearInt m, YearInt n => m <=? n
  | YearText s, YearText t => String.leb s t
  | YearInt _, YearText _ => true
  | YearText _, YearInt _ => false
  end.

Definition year_ltb (a b : year) : bool := negb (year_leb b a).

Definition string_of_int (z : Z) : string :=
  if z <? 0 then "-" ++ string_of_nonneg (- z) else string_of_nonneg z.

(** [f"{y}"] *)
Definition year_text (y : year) : string :=
  match y with
  | YearInt n => string_of_int n
  | YearText s => s
  end.

(** One row of combined_dataset.csv as [load_data] returns it: the columns
    of the file and the derived [MonthName].  [Month] is the integer pandas
    reads back from the two-digit prefix.  The numeric columns hold finite
    binary64 numbers. *)
Record row : Type := mkRow {
  DateTime : Timestamp;
  Total : Q;
  RATE_A : Q;
  RATE_B : Q;
  RATE_C : Q;
  Year : year;
  Month : Z;
  MonthName : string
}.

(** A row of the file before [load_data] adds [MonthName]. *)
Record csv_row : Type := mkCsvRow {
  csv_DateTime : Timestamp;
  csv_Total : Q;
  csv_RATE_A : Q;
  csv_RATE_B : Q;
  csv_RATE_C : Q;
  csv_Year : year;
  csv_Month : Z
}.

(** [load_data], lines 27-30: [int(x)] is the identity on the integers of
    the [Month] column. *)
Definition load_data (file : list csv_row) : list row :=
  map (fun c => mkRow (csv_DateTime c) (csv_Total c) (csv_RATE_A c)
                      (csv_RATE_B c) (csv_RATE_C c) (csv_Year c)
                      (csv_Month c) (month_name (csv_Month c))) file.

Definition hour_of (r : row) : Z := ts_hour (DateTime r).
Definition day_of (r : row) : Z := ts_day (DateTime r).

(** Days since 1970-01-01 in the proleptic Gregorian calendar. *)
Definition days_from_civil (y m d : Z) : Z :=
  let y' := if m <=? 2 then y - 1 else y in
  let era := y' / 400 in
  let yoe := y' - era * 400 in
  let mp := if 2 <? m then m - 3 else m + 9 in
  let doy := (153 * mp + 2) / 5 + d - 1 in
  let doe := yoe * 365 + yoe / 4 - yoe / 100 + doy in
  era * 146097 + doe - 719468.

(** [Series.dt.day_name()] *)
Definition day_name (t : Timestamp) : string :=
  match (days_from_civil (ts_year t) (ts_month t) (ts_day t) + 3) mod 7 with
  | 0 => "Monday" | 1 => "Tuesday" | 2 => "Wednesday" | 3 => "Thursday"
  | 4 => "Friday" | 5 => "Saturday" | _ => "Sunday"
  end.

(** ** Filtering (lines 57-61) *)

(** [Series.isin] *)
Definition isin_year (x : year) (sel : list year) : bool :=
  existsb (year_eqb x) sel.

Definition isin_Z (x : Z) (sel : list Z) : bool :=
  existsb (Z.eqb x) sel.

(** [Series.between(lo, hi)], both ends included. *)
Definition between (x lo hi : Z) : bool :=
  (lo <=? x) && (x <=? hi).

Definition passes (year_filter : list year) (month_filter : list Z)
    (day_filter : Z * Z) (r : row) : bool :=
  isin_year (Year r) year_filter
  && isin_Z (Month r) month_filter
  && between (day_of r) (fst day_filter) (snd day_filter).

Definition filter_data (data : list row) (year_filter : list year)
    (month_filter : list Z) (day_filter : Z * Z) : list row :=
  filter (passes year_filter month_filter day_filter) data.

(** ** Column aggregates *)

(** The numbers of a column added one after the other, starting from
    [start], every partial sum rounded to binary64. *)
Definition add_all (start : Q) (l : list Q) : Q := fold_left fadd l start.

(** Eight running sums, as numpy keeps them while it adds a column. *)
Definition acc8 : Type := (Q * Q * Q * Q * Q * Q * Q * Q)%type.

(** The running sums with the next eight numbers added, one to each, as
    long as eight numbers are left; with them, the numbers left over. *)
Fixpoint add_blocks (r : acc8) (rest : list Q) : acc8 * list Q :=
  match rest with
  | a0 :: a1 :: a2 :: a3 :: a4 :: a5 :: a6 :: a7 :: rest' =>
      let '(r0, r1, r2, r3, r4, r5, r6, r7) := r in
      add_blocks (fadd r0 a0, fadd r1 a1, fadd r2 a2, fadd r3 a3,
                  fadd r4 a4, fadd r5 a5, fadd r6 a6, fadd r7 a7) rest'
  | _ => (r, rest)
  end.

(** A column of at most 128 numbers: fewer than eight are added one after
    the other; otherwise eight running sums are kept, added up in pairs,
    and the numbers left over are added last. *)
Definition block_sum (a : list Q) : Q :=
  match a with
  | a0 :: a1 :: a2 :: a3 :: a4 :: a5 :: a6 :: a7 :: rest =>
      let '(r0, r1, r2, r3, r4, r5, r6, r7, tail) :=
        add_blocks (a0, a1, a2, a3, a4, a5, a6, a7) rest in
      add_all (fadd (fadd (fadd r0 r1) (fadd r2 r3))
                    (fadd (fadd r4 r5) (fadd r6 r7))) tail
  | _ => add_all 0 a
  end.

(** numpy's pairwise summation: a column of more than 128 numbers is cut
    in two, the first part a multiple of eight long, and the sums of the
    parts are added.  Every cut makes both parts shorter, so a [depth] of
    the length of the column is never used up. *)
Fixpoint pairwise_sum (depth : nat) (a : list Q) : Q :=
  match depth with
  | S depth' =>
      let n := List.length a in
      if (n <=? 128)%nat then block_sum a
      else
        let n2 := (n / 2 - (n / 2) mod 8)%nat in
        fadd (pairwise_sum depth' (firstn n2 a))
             (pairwise_sum depth' (skipn n2 a))
  | O => block_sum a
  end.

(** [Series.sum()] of a float64 column: numpy's sum of its values. *)
Definition sumQ (l : list Q) : Q := pairwise_sum (List.length l) l.

(** The sum of one group of [groupby(...).sum()]: the values added one
    after the other with a running compensation for the rounding of the
    additions (Kahan summation). *)
Definition kahan_add (s : Q * Q) (val : Q) : Q * Q :=
  let (sumx, compensation) := s in
  let y := fsub val compensation in
  let t := fadd sumx y in
  (t, fsub (fsub t sumx) y).

Definition group_sum (l : list Q) : Q := fst (fold_left kahan_add l (0%Q, 0%Q)).


Definition lenQ (l : list Q) : Q := inject_Z (Z.of_nat (List.length l)).

(** [Series.mean()]: the sum divided by the count; NaN on an empty
    column. *)
Definition mean (l : list Q) : value :=
  match l with
  | [] => NaN
  | _ :: _ => Num (fdiv (sumQ l) (lenQ l))
  end.

(** The mean of one group of [groupby(...).mean()]: its compensated sum
    divided by its count. *)
Definition group_mean (l : list Q) : value :=
  match l with
  | [] => NaN
  | _ :: _ => Num (fdiv (group_sum l) (lenQ l))
  end.

Definition Qltb (a b : Q) : bool := negb (Qle_bool b a).

Definition Qmax (a b : Q) : Q := if Qltb a b then b else a.
Definition Qmin (a b : Q) : Q := if Qltb b a then b else a.

(** [Series.max()] and [Series.min()]: NaN on an empty column. *)
Definition maxQ (l : list Q) : value :=
  match l with
  | [] => NaN
  | x :: t => Num (fold_left Qmax t x)
  end.

Definition minQ (l : list Q) : value :=
  match l with
  | [] => NaN
  | x :: t => Num (fold_left Qmin t x)
  end.

(** The comparison [column == v] of a number with an aggregate. *)
Definition eq_num (x : Q) (v : value) : bool :=
  match v with
  | Num m => Qeq_bool x m
  | NaN => false
  end.

(** ** Grouping *)

(** Keys a table can be grouped by: an equality test, and the order in
    which [groupby] lists its groups. *)
Class Key (K : Type) : Type := {
  keqb : K -> K -> bool;
  kleb : K -> K -> bool
}.

#[export] Instance Key_string : Key string :=
  {| keqb := String.eqb; kleb := String.leb |}.

#[export] Instance Key_Z : Key Z :=
  {| keqb := Z.eqb; kleb := Z.leb |}.

#[export] Instance Key_year : Key year :=
  {| keqb := year_eqb; kleb := year_leb |}.

(** Tuples of keys, compared component by component, the first one first. *)
#[export] Instance Key_pair {A B : Type} `{Key A} `{Key B} : Key (A * B) :=
  {| keqb := fun a b => keqb (fst a) (fst b) && keqb (snd a) (snd b);
     kleb := fun a b =>
       if keqb (fst a) (fst b) then kleb (snd a) (snd b)
       else kleb (fst a) (fst b) |}.

Section Sorting.
Context {A : Type} (le : A -> A -> bool).

Fixpoint insert_by (x : A) (l : list A) : list A :=
  match l with
  | [] => [x]
  | y :: t => if le x y then x :: l else y :: insert_by x t
  end.

(** A stable sort: equal elements keep their relative order. *)
Definition sort_by (l : list A) : list A := fold_right insert_by [] l.
End Sorting.

Section Grouping.
Context {K : Type} `{Key K}.

(** [Series.unique()]: the distinct values in order of first appearance. *)
Fixpoint unique (l : list K) : list K :=
  match l with
  | [] => []
  | x :: t => x :: filter (fun y => negb (keqb y x)) (unique t)
  end.

(** The group labels of [groupby], in ascending order. *)
Definition group_keys (key : row -> K) (rows : list row) : list K :=
  sort_by kleb (unique (map key rows)).

Definition group_of (key : row -> K) (rows : list row) (k : K) : list row :=
  filter (fun r => keqb (key r) k) rows.

(** [df.groupby(key)['Total'].sum()] *)
Definition groupby_sum (key : row -> K) (rows : list row) : list (K * Q) :=
  map (fun k => (k, group_sum (map Total (group_of key rows k))))
      (group_keys key rows).

(** [df.groupby(key)['Total'].mean()] *)
Definition groupby_mean (key : row -> K) (rows : list row)
  : list (K * value) :=
  map (fun k => (k, group_mean (map Total (group_of key rows k))))
      (group_keys key rows).

(** [Series.idxmax()]: the label of the first largest entry; raises on an
    empty series. *)
Definition idxmax (s : list (K * Q)) : result K :=
  match s with
  | [] => Err ValueError
  | kv :: t =>
      Ok (fst (fold_left
                 (fun best c => if Qltb (snd best) (snd c) then c else best)
                 t kv))
  end.

(** [Series.idxmin()] *)
Definition idxmin (s : list (K * Q)) : result K :=
  match s with
  | [] => Err ValueError
  | kv :: t =>
      Ok (fst (fold_left
                 (fun best c => if Qltb (snd c) (snd best) then c else best)
                 t kv))
  end.

(** [series[label]] *)
Fixpoint loc (s : list (K * Q)) (label : K) : result Q :=
  match s with
  | [] => Err KeyError
  | (k, v) :: t => if keqb k label then Ok v else loc t label
  end.

Definition count (x : K) (l : list K) : nat :=
  List.length (filter (keqb x) l).

(** [Series.mode()]: the most frequent values, ascending. *)
Definition mode (l : list K) : list K :=
  let best := fold_right Nat.max 0%nat (map (fun x => count x l) l) in
  sort_by kleb (filter (fun x => Nat.eqb (count x l) best) (unique l)).
End Grouping.

(** [series.iloc[0]] and, on the fresh index [mode] returns, [series[0]]. *)
Definition iloc0 {A : Type} (l : list A) : result A :=
  match l with
  | [] => Err IndexError
  | x :: _ => Ok x
  end.

Definition at0 {A : Type} (l : list A) : result A :=
  match l with
  | [] => Err KeyError
  | x :: _ => Ok x
  end.

(** [pivot_table(index=hour, columns=day, values='Total', aggfunc='mean')]:
    one line per hour present, one cell per day present, NaN where no row
    has that hour and day. *)
Definition pivot_mean (rows : list row) : list (Z * list (Z * value)) :=
  map (fun h =>
         (h, map (fun d =>
                    (d, group_mean (map Total
                                (filter (fun r => (hour_of r =? h)
                                                  && (day_of r =? d)) rows))))
                 (group_keys day_of rows)))
      (group_keys hour_of rows).

(** ** The report *)

Inductive rate : Type := RateA | RateB | RateC.

Definition rate_column (r : rate) : row -> Q :=
  match r with
  | RateA => RATE_A
  | RateB => RATE_B
  | RateC => RATE_C
  end.

(** The magnitudes [main] itself turns into text. *)
Inductive metric : Type :=
| TotalEnergy | AverageEnergy
| YearBar (y : year)
| HighestYear | LowestYear
| HighestMonth | LowestMonth
| HighestHour | LowestHour
| HighestTotal
| RateMax (r : rate) | RateMin (r : rate)
| RateAvg (r : rate) | RateStd (r : rate)
| HighestWeekday | LowestWeekday.

(** A printed magnitude: which one, its value, the text shown for it. *)
Record shown : Type := mkShown {
  sh_metric : metric;
  sh_value : value;
  sh_text : string
}.

(** What one run of [main] displays.  The labels around the numbers, in
    either language, are left out: both label sets are bound to the same
    numbers.  The values of the two line charts are turned into text by
    the plotting layer, from the hover templates; the heat map and the
    table are handed over as they are.  [table] holds the rows shown, to
    which line 224 has added the name of their weekday. *)
Record report : Type := mkReport {
  dynamic_title : string;
  magnitudes : list shown;
  yearly_data : list (year * Q);
  monthly_data : list ((year * (Z * string)) * Q);
  monthly_hover : string;
  daily_data : list (Z * value);
  daily_hover : string;
  heatmap_data : list (Z * list (Z * value));
  max_year : year;
  min_year : year;
  max_month_name : string;
  min_month_name : string;
  max_hour : Z;
  min_hour : Z;
  max_datetime : Timestamp;
  peak_hour_freq : Z;
  max_weekday : string;
  min_weekday : string;
  table : list row
}.

(** Python's [min] and [max] of a non-empty list of Year cells. *)
Definition min_year_of (x : year) (t : list year) : year :=
  fold_left (fun m y => if year_ltb y m then y else m) t x.

Definition max_year_of (x : year) (t : list year) : year :=
  fold_left (fun m y => if year_ltb m y then y else m) t x.

Definition weekday_of (r : row) : string := day_name (DateTime r).

(** The rows holding the largest [Total] (lines 193 and 220). *)
Definition max_total_rows (rows : list row) : list row :=
  filter (fun r => eq_num (Total r) (maxQ (map Total rows))) rows.

(** [Series.sort_values(ascending=False)] on the weekday sums: the entries
    in descending order of their sums.  The order in which it leaves
    entries of equal sums is not fixed by pandas, so the sort is taken as
    it comes, with the two facts every sort provides. *)
Record sort_values : Type := mkSortValues {
  sort_desc : list (string * Q) -> list (string * Q);
  sort_desc_perm : forall s, Permutation (sort_desc s) s;
  sort_desc_sorted :
    forall s, StronglySorted (fun a b => (snd b <= snd a)%Q) (sort_desc s)
}.

Section Report.
(** The square root of the floating-point library. *)
Variable fsqrt : Q -> Q.
(** The sort of the weekday sums. *)
Variable sv : sort_values.

(** [Series.std()], the sample standard deviation: NaN below two
    observations. *)
Definition std (l : list Q) : value :=
  match l with
  | [] | [_] => NaN
  | _ =>
      let avg := fdiv (sumQ l) (lenQ l) in
      let sqr := map (fun x => fmul (fsub avg x) (fsub avg x)) l in
      Num (fsqrt (fdiv (sumQ sqr) (fsub (lenQ l) 1)))
  end.

(** The four figures printed for one rate column (lines 200-215). *)
Definition rate_stats (rows : list row) (r : rate) : list shown :=
  let col := map (rate_column r) rows in
  [ mkShown (RateMax r) (maxQ col) (format_number (maxQ col));
    mkShown (RateMin r) (minQ col) (format_number (minQ col));
    mkShown (RateAvg r) (mean col) (format_number (mean col));
    mkShown (RateStd r) (std col) (format_number (std col)) ].

(** [main], lines 33-231; [data] is what [load_data] returned, the three
    filters are the values of the sidebar widgets. *)
Definition main (data : list row) (year_filter : list year)
    (month_filter : list Z) (day_filter : Z * Z) : result report :=
  (* lines 46-52: start_year and end_year are bound only here *)
  let years :=
    match year_filter with
    | [] => None
    | y :: t => Some (min_year_of y t, max_year_of y t)
    end in
  let duration := Z.of_nat (List.length year_filter) in
  let dynamic_title :=
    match years with
    | Some (start_year, end_year) =>
        "Electricity Consumption Analysis for " ++ year_text start_year
        ++ " - " ++ year_text end_year ++ " (Over "
        ++ string_of_nonneg duration ++ " Year"
        ++ (if 1 <? duration then "s" else "") ++ ")"
    | None => "Electricity Consumption Analysis"
    end in
  (* lines 57-61 *)
  let filtered_data := filter_data data year_filter month_filter day_filter in
  (* lines 65-68 *)
  let total_energy := Num (sumQ (map Total filtered_data)) in
  let avg_energy := mean (map Total filtered_data) in
  let overview :=
    [ mkShown TotalEnergy total_energy (fmt2_comma total_energy);
      mkShown AverageEnergy avg_energy (format_number avg_energy) ] in
  (* line 71 reads start_year and end_year *)
  _ <- match years with
       | Some p => Ok p
       | None => Err UnboundLocalError
       end ;;
  (* lines 72-78 *)
  let yearly_data := groupby_sum Year filtered_data in
  let bars :=
    map (fun yv => mkShown (YearBar (fst yv)) (Num (snd yv))
                           (format_number (Num (snd yv)))) yearly_data in
  (* lines 86-96 *)
  let monthly_data :=
    groupby_sum (fun r => (Year r, (Month r, MonthName r))) filtered_data in
  let monthly_hover :=
    "Month: %{x}<br>Total: %{y:,.2f} kWh<extra></extra>" in
  (* lines 111-119 *)
  let daily_data := groupby_mean hour_of filtered_data in
  let daily_hover :=
    "Hour: %{x}<br>Average: %{y:,.2f} kWh<extra></extra>" in
  (* lines 134-136 *)
  let heatmap_data := pivot_mean filtered_data in
  (* lines 169-173 *)
  let yearly_usage := groupby_sum Year filtered_data in
  max_year <- idxmax yearly_usage ;;
  min_year <- idxmin yearly_usage ;;
  max_year_total <- loc yearly_usage max_year ;;
  min_year_total <- loc yearly_usage min_year ;;
  (* lines 176-182 *)
  let monthly_usage := groupby_sum Month filtered_data in
  max_month <- idxmax monthly_usage ;;
  min_month <- idxmin monthly_usage ;;
  let max_month_name := month_name max_month in
  let min_month_name := month_name min_month in
  max_month_total <- loc monthly_usage max_month ;;
  min_month_total <- loc monthly_usage min_month ;;
  (* lines 185-189 *)
  let hourly_usage := groupby_sum hour_of filtered_data in
  max_hour <- idxmax hourly_usage ;;
  min_hour <- idxmin hourly_usage ;;
  max_hour_total <- loc hourly_usage max_hour ;;
  min_hour_total <- loc hourly_usage min_hour ;;
  (* lines 192-195 *)
  let max_total := maxQ (map Total filtered_data) in
  let max_total_row := max_total_rows filtered_data in
  max_datetime <- iloc0 (map DateTime max_total_row) ;;
  (* lines 200-215 *)
  let rates := flat_map (rate_stats filtered_data) [RateA; RateB; RateC] in
  (* line 220 *)
  peak_hour_freq <- at0 (mode (map hour_of (max_total_rows filtered_data))) ;;
  (* lines 224-227 *)
  let weekday_usage := sort_desc sv (groupby_sum weekday_of filtered_data) in
  max_weekday <- idxmax weekday_usage ;;
  let max_weekday_total := maxQ (map snd weekday_usage) in
  min_weekday <- idxmin weekday_usage ;;
  let min_weekday_total := minQ (map snd weekday_usage) in
  let insights :=
    [ mkShown HighestYear (Num max_year_total)
              (format_number (Num max_year_total));
      mkShown LowestYear (Num min_year_total)
              (format_number (Num min_year_total));
      mkShown HighestMonth (Num max_month_total)
              (format_number (Num max_month_total));
      mkShown LowestMonth (Num min_month_total)
              (format_number (Num min_month_total));
      mkShown HighestHour (Num max_hour_total)
              (format_number (Num max_hour_total));
      mkShown LowestHour (Num min_hour_total)
              (format_number (Num min_hour_total));
      mkShown HighestTotal max_total (format_number max_total) ] in
  let weekdays :=
    [ mkShown HighestWeekday max_weekday_total
              (format_number max_weekday_total);
      mkShown LowestWeekday min_weekday_total
              (format_number min_weekday_total) ] in
  Ok {| dynamic_title := dynamic_title;
        magnitudes := (overview ++ bars ++ insights ++ rates ++ weekdays)%list;
        yearly_data := yearly_data;
        monthly_data := monthly_data;
        monthly_hover := monthly_hover;
        daily_data := daily_data;
        daily_hover := daily_hover;
        heatmap_data := heatmap_data;
        max_year := max_year;
        min_year := min_year;
        max_month_name := max_month_name;
        min_month_name := min_month_name;
        max_hour := max_hour;
        min_hour := min_hour;
        max_datetime := max_datetime;
        peak_hour_freq := peak_hour_freq;
        max_weekday := max_weekday;
        min_weekday := min_weekday;
        table := filtered_data |}.
End Report.

(** ** The dataset assembler (combined_dataset.py) *)

Module Assembler.

(** A row of a table: its cells by column name, each as [to_csv] writes
    it (the empty text for a missing value). *)
Definition frame_row : Type := list (string * string).

(** A table: its header and its rows, every row holding the columns of
    the header. *)
Record DataFrame : Type := mkFrame {
  columns : list string;
  frame_rows : list frame_row
}.

(** What [pd.read_csv] does with one directory entry: a table, or an
    exception with its message. *)
Inductive read_result : Type :=
| Parsed (df : DataFrame)
| Failed (reason : string).

(** An entry of the root folder: a folder with its own entries, or anything
    else. *)
Inductive entry : Type :=
| YearDir (files : list (string * read_result))
| NotDir.

Definition tree : Type := list (string * entry).

Definition preprocessed_data_dir : string := "../preprocessingdata".

(** [os.path.join] of two relative components. *)
Definition path_join (a b : string) : string := a ++ "/" ++ b.

Fixpoint get_column (name : string) (r : frame_row) : option string :=
  match r with
  | [] => None
  | (c, v) :: t => if String.eqb c name then Some v else get_column name t
  end.

(** The cell of a row in a column, empty when the row has no such
    column. *)
Definition cell (name : string) (r : frame_row) : string :=
  match get_column name r with
  | Some v => v
  | None => ""
  end.

(** [df[name] = v] on one row: the column is overwritten, or added last. *)
Fixpoint set_column (name v : string) (r : frame_row) : frame_row :=
  match r with
  | [] => [(name, v)]
  | (c, old) :: t =>
      if String.eqb c name then (c, v) :: t
      else (c, old) :: set_column name v t
  end.

(** [df[name] = v] on the header. *)
Definition add_column (name : string) (cols : list string) : list string :=
  if existsb (String.eqb name) cols then cols else (cols ++ [name])%list.

(** [df[name] = v] *)
Definition assign (name v : string) (df : DataFrame) : DataFrame :=
  mkFrame (add_column name (columns df))
          (map (set_column name v) (frame_rows df)).

(** Lines 22-23, on one row. *)
Definition tag_row (year file : string) (r : frame_row) : frame_row :=
  set_column "Month" (substring 0 2 file) (set_column "Year" year r).

(** Lines 22-23. *)
Definition tag (year file : string) (df : DataFrame) : DataFrame :=
  assign "Month" (substring 0 2 file) (assign "Year" year df).

(** A row laid out on a header: one cell per column of the header, empty
    where the row has none. *)
Definition reindex (cols : list string) (r : frame_row) : frame_row :=
  map (fun c => (c, cell c r)) cols.

(** [pd.concat(frames, ignore_index=True)]: the header is the union of the
    headers, in order of first appearance; the rows follow frame after
    frame, laid out on that header. *)
Definition pd_concat (frames : list DataFrame) : DataFrame :=
  let cols := unique (flat_map columns frames) in
  mkFrame cols
          (flat_map (fun df => map (reindex cols) (frame_rows df)) frames).

(** The script's variables and effects: the list being built and the lines
    printed so far. *)
Record state : Type := mkState {
  data_frames : list DataFrame;
  stdout : list string
}.

(** Lines 15-28, one entry of a year folder. *)
Definition visit_file (year : string) (st : state)
    (f : string * read_result) : state :=
  let (file, read_csv) := f in
  if endswith file ".csv" then
    let file_path := path_join (path_join preprocessed_data_dir year) file in
    match read_csv with
    | Parsed df =>
        mkState (data_frames st ++ [tag year file df])%list (stdout st)
    | Failed e =>
        let line := "Error reading file " ++ file_path ++ ": " ++ e in
        mkState (data_frames st) (stdout st ++ [line])%list
    end
  else st.

(** Lines 11-14, one entry of the root folder. *)
Definition visit_year (st : state) (y : string * entry) : state :=
  let (year, e) := y in
  match e with
  | YearDir files => fold_left (visit_file year) files st
  | NotDir => st
  end.

(** The run as a whole: what was printed, and the content of
    combined_dataset.csv when it was written. *)
Record outcome : Type := mkOutcome {
  printed : list string;
  written : option DataFrame
}.

Definition no_data_found : string :=
  "No data found in preprocessingdata folder.".

(** Lines 11-40. *)
Definition assemble (root : tree) : outcome :=
  let st := fold_left visit_year root (mkState [] []) in
  match data_frames st with
  | [] => mkOutcome (stdout st ++ [no_data_found])%list None
  | _ :: _ =>
      let all_data := pd_concat (data_frames st) in
      mkOutcome (stdout st
                 ++ ["Dataset created successfully!";
                     "Combined dataset saved as 'combined_dataset.csv'"])%list
                (Some all_data)
  end.

(** The entries of one year folder the assembler reads: those whose name
    ends in ".csv", with the folder name and what reading gives. *)
Definition year_candidates (year : string)
    (files : list (string * read_result))
  : list (string * string * read_result) :=
  map (fun f => (year, fst f, snd f))
      (filter (fun f => endswith (fst f) ".csv") files).

(** All of them, in traversal order. *)
Definition candidates (root : tree) : list (string * string * read_result) :=
  flat_map (fun y : string * entry =>
              match snd y with
              | YearDir files => year_candidates (fst y) files
              | NotDir => []
              end) root.

Definition parsed_of (cs : list (string * string * read_result))
  : list (string * string * DataFrame) :=
  flat_map (fun c : string * string * read_result =>
              match c with
              | (y, f, Parsed df) => [(y, f, df)]
              | (_, _, Failed _) => []
              end) cs.

Definition failed_of (cs : list (string * string * read_result))
  : list (string * string * string) :=
  flat_map (fun c : string * string * read_result =>
              match c with
              | (_, _, Parsed _) => []
              | (y, f, Failed e) => [(y, f, e)]
              end) cs.

(** The candidates that parse, with their tables. *)
Definition valid_files (root : tree) : list (string * string * DataFrame) :=
  parsed_of (candidates root).

(** The candidates that fail to parse, with the reasons. *)
Definition invalid_files (root : tree) : list (string * string * string) :=
  failed_of (candidates root).

(** The table one valid file contributes. *)
Definition tagged (v : string * string * DataFrame) : DataFrame :=
  match v with
  | (y, f, df) => tag y f df
  end.

Definition diagnostic (c : string * string * string) : string :=
  match c with
  | (y, f, e) =>
      "Error reading file "
      ++ path_join (path_join preprocessed_data_dir y) f ++ ": " ++ e
  end.

(** The tree with everything the assembler skips removed: root entries that
    are not folders, and entries of year folders whose name does not end in
    ".csv". *)
Definition relevant (root : tree) : tree :=
  flat_map (fun y : string * entry =>
              match snd y with
              | YearDir files =>
                  [(fst y,
                    YearDir (filter (fun f => endswith (fst f) ".csv") files))]
              | NotDir => []
              end) root.

(** Two sample folders: one where nothing parses, one with two tables of
    different headers and a broken file. *)
Definition all_invalid : tree :=
  [("2021", YearDir [("01.csv", Failed "No columns to parse from file");
                     ("notes.txt", Parsed (mkFrame [] []))]);
   ("README.md", NotDir)].

Definition one_valid : tree :=
  [("2021",
    YearDir [("01.csv",
              Parsed (mkFrame ["DateTime"; "Total"]
                        [[("DateTime", "2021-01-01 00:00:00"); ("Total", "1.5")];
                         [("DateTime", "2021-01-01 00:15:00"); ("Total", "2.5")]]));
             ("02.csv", Failed "No columns to parse from file")]);
   ("2022",
    YearDir [("03_march.csv",
              Parsed (mkFrame ["DateTime"; "Total"; "Note"]
                        [[("DateTime", "2022-03-01 00:00:00"); ("Total", "3.5");
                          ("Note", "estimated")]]))])].

End Assembler.

(** ** Vocabulary for the summary insights *)

(** A magnitude printed through [format_number]. *)
Definition shown_by_rule (m : metric) (v : value) : shown :=
  mkShown m v (format_number v).

(** [hi], with total [vhi], is the first largest entry of a series: the
    entries before it are smaller, those after it are not larger. *)
Definition first_largest {K : Type} (series : list (K * Q)) (hi : K)
    (vhi : Q) : Prop :=
  exists pre post,
    series = (pre ++ (hi, vhi) :: post)%list
    /\ (forall k v, In (k, v) pre -> (v < vhi)%Q)
    /\ (forall k v, In (k, v) post -> (v <= vhi)%Q).

(** [lo], with total [vlo], is the first smallest entry of a series. *)
Definition first_smallest {K : Type} (series : list (K * Q)) (lo : K)
    (vlo : Q) : Prop :=
  exists pre post,
    series = (pre ++ (lo, vlo) :: post)%list
    /\ (forall k v, In (k, v) pre -> (vlo < v)%Q)
    /\ (forall k v, In (k, v) post -> (vlo <= v)%Q).


(** ** The default selection (lines 41-43) *)

(** The sidebar widgets start with every year and every month of the table
    selected, and the full range of days. *)
Definition default_year_filter (data : list row) : list year :=
  unique (map Year data).

Definition default_month_filter (data : list row) : list Z :=
  unique (map Month data).

Definition default_day_filter : Z * Z := (1, 31).

(** A selection narrows another one in one dimension: fewer years, or fewer
    months, or a day range inside the other, and the rest unchanged. *)
Definition narrows (ys1 : list year) (ms1 : list Z) (d1 : Z * Z)
    (ys2 : list year) (ms2 : list Z) (d2 : Z * Z) : Prop :=
  (incl ys2 ys1 /\ ms2 = ms1 /\ d2 = d1)
  \/ (ys2 = ys1 /\ incl ms2 ms1 /\ d2 = d1)
  \/ (ys2 = ys1 /\ ms2 = ms1 /\ fst d1 <= fst d2 /\ snd d2 <= snd d1).

(** ** Sample inputs *)

Definition y2021 : year := YearInt 2021.
Definition y2022 : year := YearInt 2022.

(** Six January readings; four of them hold the largest Total, two at
    5 o'clock and two at 7 o'clock. *)
Definition sample_rows : list row :=
  let mk d h t :=
    mkRow (mkTimestamp 2021 1 d h 0 0) t 1 2 3 y2021 1 "January" in
  [ mk 1 3 10%Q; mk 2 5 4000%Q; mk 3 5 1000%Q;
    mk 4 7 4000%Q; mk 5 7 4000%Q; mk 6 5 4000%Q ].

(** One January reading on a given day, for a given year. *)
Definition january (d : Z) (y : year) : row :=
  mkRow (mkTimestamp 2021 1 d 12 0 0) 10 1 2 3 y 1 "January".

(** The binary64 number a decimal text of the file is read as. *)
Definition reading (q : Q) : Q := round64 q.


(** * Properties *)

(** ** Magnitude formatting *)

Lemma ge_num_true (q bound : Q) :
  ge_num (Num q) bound = true <-> (bound <= q)%Q.
Proof. simpl. apply Qle_bool_iff. Qed.

Lemma ge_num_false (q bound : Q) :
  (q < bound)%Q -> ge_num (Num q) bound = false.
Proof.
  intros Hlt. simpl. destruct (Qle_bool bound q) eqn:E; [|reflexivity].
  apply Qle_bool_iff in E. exfalso. exact (Qlt_not_le _ _ Hlt E).
Qed.

Lemma string_app_assoc (a b c : string) : (a ++ b) ++ c = a ++ (b ++ c).
Proof. induction a as [|x a IH]; simpl; [reflexivity | now rewrite IH]. Qed.

Lemma string_app_length (a b : string) :
  String.length (a ++ b) = (String.length a + String.length b)%nat.
Proof. induction a as [|x a IH]; simpl; [reflexivity | now rewrite IH]. Qed.

Lemma substring_last (s : string) (c : ascii) :
  substring (String.length s) 1 (s ++ String c "") = String c "".
Proof. induction s as [|x s IH]; simpl; [reflexivity | exact IH]. Qed.

(** Whether a string ends with a given character is decided by its last
    character. *)
Lemma endswith_last (s : string) (c k : ascii) :
  endswith (s ++ String c "") (String k "") = Ascii.eqb c k.
Proof.
  unfold endswith. rewrite string_app_length. simpl String.length.
  replace (String.length s + 1 - 1)%nat with (String.length s) by lia.
  rewrite substring_last.
  replace (1 <=? String.length s + 1)%nat with true
    by (symmetry; apply Nat.leb_le; lia).
  simpl. destruct (Ascii.eqb c k); reflexivity.
Qed.

Lemma digit_char_not_suffix (d : Z) :
  0 <= d < 10 ->
  Ascii.eqb (digit_char d) "K" = false /\ Ascii.eqb (digit_char d) "M" = false.
Proof.
  intros Hd.
  assert (E : d = 0 \/ d = 1 \/ d = 2 \/ d = 3 \/ d = 4 \/ d = 5 \/ d = 6
              \/ d = 7 \/ d = 8 \/ d = 9) by lia.
  repeat (destruct E as [-> | E]; [split; reflexivity|]).
  subst d. split; reflexivity.
Qed.

(** The two-decimal rendering of a number ends with a digit. *)
Lemma fmt2_last_digit (q : Q) :
  exists pre d, 0 <= d < 10 /\ fmt2 (Num q) = pre ++ String (digit_char d) "".
Proof.
  set (h := round_hundredths q).
  exists (sign_of q ++ string_of_nonneg (h / 100) ++ "."
          ++ String (digit_char (h mod 100 / 10)) ""), (h mod 100 mod 10).
  split; [apply Z.mod_pos_bound; lia|].
  unfold fmt2, two_digits. fold h.
  rewrite !string_app_assoc. reflexivity.
Qed.

Lemma fmt2_no_suffix (q : Q) :
  endswith (fmt2 (Num q)) "K" = false /\ endswith (fmt2 (Num q)) "M" = false.
Proof.
  destruct (fmt2_last_digit q) as (pre & d & Hd & ->).
  rewrite !endswith_last. now apply digit_char_not_suffix.
Qed.

(** ** The two-decimal rendering, read back *)

Lemma digit_char_facts (d : Z) :
  0 <= d < 10 ->
  is_digit (digit_char d) = true
  /\ digit_value (digit_char d) = d
  /\ (Ascii.eqb (digit_char d) "0" = true <-> d = 0).
Proof.
  intros Hd.
  assert (E : d = 0 \/ d = 1 \/ d = 2 \/ d = 3 \/ d = 4 \/ d = 5 \/ d = 6
              \/ d = 7 \/ d = 8 \/ d = 9) by lia.
  repeat (destruct E as [-> | E];
          [repeat split; try reflexivity; intros; try discriminate; lia|]).
  subst d. repeat split; try reflexivity; intros; try discriminate; lia.
Qed.

Lemma digits_fuel_app (fuel : nat) (n : Z) (acc rest : string) :
  digits_fuel fuel n acc ++ rest = digits_fuel fuel n (acc ++ rest).
Proof.
  revert n acc. induction fuel as [|fuel IH]; intros n acc; simpl.
  - reflexivity.
  - destruct (n / 10 =? 0); [reflexivity|]. now rewrite IH.
Qed.

(** Reading the digits written for [m] gives [m] back. *)
Lemma read_digits_fuel (fuel : nat) :
  forall (m : Z) (acc : string),
    0 <= m < 2 ^ Z.of_nat fuel ->
    read_digits (digits_fuel fuel m acc) 0 = read_digits acc m.
Proof.
  induction fuel as [|fuel IH]; intros m acc Hm.
  - simpl in Hm. assert (m = 0) by lia. subst m. reflexivity.
  - rewrite Nat2Z.inj_succ, Z.pow_succ_r in Hm by lia.
    assert (Hd : 0 <= m mod 10 < 10) by (apply Z.mod_pos_bound; lia).
    destruct (digit_char_facts (m mod 10) Hd) as (Hdig & Hval & _).
    pose proof (Z.div_mod m 10 ltac:(lia)) as Hdm.
    cbn [digits_fuel]. destruct (m / 10 =? 0) eqn:E.
    + apply Z.eqb_eq in E. cbn [read_digits]. rewrite Hdig, Hval.
      f_equal. lia.
    + apply Z.eqb_neq in E. rewrite IH.
      * cbn [read_digits]. rewrite Hdig, Hval. f_equal. lia.
      * split; [apply Z.div_pos; lia|].
        apply Z.div_lt_upper_bound; lia.
Qed.

(** The digits written for a positive number start with a digit other
    than 0. *)
Lemma digits_fuel_head (fuel : nat) :
  forall (m : Z) (acc : string),
    0 < m < 2 ^ Z.of_nat fuel ->
    exists c rest,
      digits_fuel fuel m acc = String c rest
      /\ is_digit c = true /\ Ascii.eqb c "0" = false.
Proof.
  induction fuel as [|fuel IH]; intros m acc Hm.
  - simpl in Hm. lia.
  - rewrite Nat2Z.inj_succ, Z.pow_succ_r in Hm by lia.
    assert (Hd : 0 <= m mod 10 < 10) by (apply Z.mod_pos_bound; lia).
    destruct (digit_char_facts (m mod 10) Hd) as (Hdig & _ & Hzero).
    pose proof (Z.div_mod m 10 ltac:(lia)) as Hdm.
    cbn [digits_fuel]. destruct (m / 10 =? 0) eqn:E.
    + apply Z.eqb_eq in E. eexists. eexists. split; [reflexivity|].
      split; [exact Hdig|].
      destruct (Ascii.eqb (digit_char (m mod 10)) "0"); [|reflexivity].
      assert (m mod 10 = 0) by (now apply Hzero). lia.
    + apply Z.eqb_neq in E. apply IH. split.
      * assert (0 <= m / 10) by (apply Z.div_pos; lia). lia.
      * apply Z.div_lt_upper_bound; lia.
Qed.

Lemma string_of_nonneg_fuel (n : Z) :
  0 <= n -> n < 2 ^ Z.of_nat (S (Z.to_nat (Z.log2 n))).
Proof.
  intros Hn. rewrite Nat2Z.inj_succ, Z2Nat.id by apply Z.log2_nonneg.
  destruct (Z.eq_dec n 0) as [-> | Hne]; [reflexivity|].
  apply Z.log2_spec. lia.
Qed.

Lemma round_hundredths_nonneg (q : Q) : 0 <= round_hundredths q.
Proof.
  unfold round_hundredths.
  set (n := Z.abs (Qnum q) * 100). set (d := Zpos (Qden q)).
  assert (Hf : 0 <= n / d) by (apply Z.div_pos; unfold n, d; lia).
  destruct (2 * (n mod d) <? d); [assumption|].
  destruct (d <? 2 * (n mod d)); [lia|].
  destruct (Z.even (n / d)); lia.
Qed.

Lemma read_unsigned_shape (body : string) (c : ascii) (rest : string)
    (whole d1 d2 : Z) :
  body = String c rest ->
  is_digit c = true ->
  Ascii.eqb c "0" && starts_with_digit rest = false ->
  0 <= d1 < 10 -> 0 <= d2 < 10 ->
  read_digits body 0
  = (whole, String "." (String (digit_char d1) (String (digit_char d2) ""))) ->
  read_unsigned body = Some (whole * 100 + d1 * 10 + d2).
Proof.
  intros -> Hc Hz H1 H2 Hread. unfold read_unsigned.
  rewrite Hc, Hz, Hread. cbn [andb negb].
  destruct (digit_char_facts d1 H1) as (Hd1 & Hv1 & _).
  destruct (digit_char_facts d2 H2) as (Hd2 & Hv2 & _).
  rewrite Hd1, Hd2, Hv1, Hv2. reflexivity.
Qed.

(** The unsigned part written for [h] hundredths reads back as [h]. *)
Lemma read_unsigned_written (h : Z) :
  0 <= h ->
  read_unsigned (string_of_nonneg (h / 100) ++ "." ++ two_digits (h mod 100))
  = Some h
  /\ exists c rest,
       string_of_nonneg (h / 100) ++ "." ++ two_digits (h mod 100)
       = String c rest
       /\ is_digit c = true.
Proof.
  intros Hh.
  assert (Hw : 0 <= h / 100) by (apply Z.div_pos; lia).
  assert (Hk : 0 <= h mod 100 < 100) by (apply Z.mod_pos_bound; lia).
  assert (H1 : 0 <= h mod 100 / 10 < 10).
  { split; [apply Z.div_pos; lia | apply Z.div_lt_upper_bound; lia]. }
  assert (H2 : 0 <= h mod 100 mod 10 < 10) by (apply Z.mod_pos_bound; lia).
  assert (Hval : h / 100 * 100 + h mod 100 / 10 * 10 + h mod 100 mod 10 = h).
  { pose proof (Z.div_mod (h mod 100) 10 ltac:(lia)).
    pose proof (Z.div_mod h 100 ltac:(lia)). lia. }
  set (tail := "." ++ two_digits (h mod 100)).
  unfold string_of_nonneg. rewrite digits_fuel_app.
  change ("" ++ tail) with tail.
  pose proof (string_of_nonneg_fuel (h / 100) Hw) as Hfuel.
  set (fuel := S (Z.to_nat (Z.log2 (h / 100)))) in *.
  assert (Hread : read_digits (digits_fuel fuel (h / 100) tail) 0
                  = (h / 100, tail)).
  { rewrite read_digits_fuel by lia. reflexivity. }
  assert (Hshape : exists c rest,
             digits_fuel fuel (h / 100) tail = String c rest
             /\ is_digit c = true
             /\ Ascii.eqb c "0" && starts_with_digit rest = false).
  { destruct (Z.eq_dec (h / 100) 0) as [E0 | Hne].
    - unfold fuel. rewrite E0. simpl digits_fuel.
      eexists. eexists. split; [reflexivity|]. split; reflexivity.
    - destruct (digits_fuel_head fuel (h / 100) tail)
        as (c & rest & Ec & Hc & Hc0); [lia|].
      exists c, rest. rewrite Hc0. auto. }
  destruct Hshape as (c & rest & Ec & Hc & Hz). split.
  - rewrite <- Hval at 2.
    apply (read_unsigned_shape _ c rest); auto.
  - exists c, rest. auto.
Qed.

(** The text written for a number reads back as its sign and its number
    of hundredths: the text is in canonical two-decimal form. *)
Lemma read_fixed2_fmt2 (q : Q) :
  read_fixed2 (fmt2 (Num q)) = Some (Qnum q <? 0, round_hundredths q).
Proof.
  unfold fmt2. set (h := round_hundredths q).
  assert (Hh : 0 <= h) by apply round_hundredths_nonneg.
  destruct (read_unsigned_written h Hh) as (Hread & c & rest & Ec & Hc).
  unfold sign_of. destruct (Qnum q <? 0).
  - change ("-" ++ string_of_nonneg (h / 100) ++ "."
            ++ two_digits (h mod 100))
      with (String "-" (string_of_nonneg (h / 100) ++ "."
                        ++ two_digits (h mod 100))).
    unfold read_fixed2. rewrite Ascii.eqb_refl, Hread. reflexivity.
  - change ("" ++ string_of_nonneg (h / 100) ++ "."
            ++ two_digits (h mod 100))
      with (string_of_nonneg (h / 100) ++ "." ++ two_digits (h mod 100)).
    unfold read_fixed2. rewrite Ec.
    assert (Hm : Ascii.eqb c "-" = false).
    { destruct (Ascii.eqb c "-") eqn:E; [|reflexivity].
      apply Ascii.eqb_eq in E. subst c. discriminate Hc. }
    rewrite Hm, <- Ec, Hread. reflexivity.
Qed.

(** ** Rounding *)

(** The choice made by [rne] and by [round_hundredths]: the nearest
    integer to [n / d], the even one when two are as near. *)
Lemma nearest_choice (n d : Z) :
  0 <= n -> 0 < d ->
  let f := n / d in
  let r := n mod d in
  let h := if 2 * r <? d then f
           else if d <? 2 * r then f + 1
           else if Z.even f then f else f + 1 in
  2 * Z.abs (h * d - n) <= d
  /\ (2 * Z.abs (h * d - n) = d -> Z.even h = true).
Proof.
  intros Hn Hd f r h.
  pose proof (Z.div_mod n d ltac:(lia)) as Hdiv. fold f r in Hdiv.
  pose proof (Z.mod_pos_bound n d Hd) as Hr. fold r in Hr.
  assert (Hf : f * d = n - r) by lia.
  assert (Hf1 : (f + 1) * d = n - r + d) by lia.
  unfold h.
  destruct (2 * r <? d) eqn:E1.
  - apply Z.ltb_lt in E1. rewrite Hf. split; lia.
  - apply Z.ltb_ge in E1. destruct (d <? 2 * r) eqn:E2.
    + apply Z.ltb_lt in E2. rewrite Hf1. split; lia.
    + apply Z.ltb_ge in E2. destruct (Z.even f) eqn:E3.
      * rewrite Hf. split; [lia | auto].
      * rewrite Hf1. split; [lia|]. intros _.
        rewrite Z.add_1_r, Z.even_succ, <- Z.negb_even, E3. reflexivity.
Qed.

(** The number of hundredths written for [q] is the integer nearest to
    [100 * |q|], the even one when two are as near. *)
Lemma round_hundredths_nearest (q : Q) :
  (Qabs (inject_Z (round_hundredths q) - 100 * Qabs q) <= 1 # 2)%Q
  /\ ((Qabs (inject_Z (round_hundredths q) - 100 * Qabs q) == 1 # 2)%Q ->
      Z.even (round_hundredths q) = true).
Proof.
  destruct q as [n0 d0].
  destruct (nearest_choice (Z.abs n0 * 100) (Zpos d0)) as [H1 H2]; try lia.
  unfold round_hundredths. cbn [Qnum Qden].
  set (h := if 2 * ((Z.abs n0 * 100) mod Zpos d0) <? Zpos d0
            then Z.abs n0 * 100 / Zpos d0
            else if Zpos d0 <? 2 * ((Z.abs n0 * 100) mod Zpos d0)
                 then Z.abs n0 * 100 / Zpos d0 + 1
                 else if Z.even (Z.abs n0 * 100 / Zpos d0)
                      then Z.abs n0 * 100 / Zpos d0
                      else Z.abs n0 * 100 / Zpos d0 + 1) in *.
  assert (E : (inject_Z h - 100 * Qabs (n0 # d0)
               == (h * Zpos d0 - Z.abs n0 * 100) # d0)%Q).
  { clear H1 H2. clearbody h.
    unfold Qeq, Qminus, Qplus, Qopp, Qmult, Qabs, inject_Z.
    cbn [Qnum Qden]. rewrite ?Pos2Z.inj_mul. ring. }
  split.
  - rewrite E. unfold Qle, Qabs. simpl. lia.
  - intros Ht. apply H2. rewrite E in Ht.
    unfold Qeq, Qabs in Ht. simpl in Ht. lia.
Qed.

Lemma rne_nearest (x : Q) :
  (0 <= x)%Q -> (Qabs (inject_Z (rne x) - x) <= 1 # 2)%Q.
Proof.
  destruct x as [n d]. intros Hx.
  assert (Hn : 0 <= n) by (unfold Qle in Hx; simpl in Hx; lia).
  destruct (nearest_choice n (Zpos d)) as [H1 _]; try lia.
  unfold rne. cbn [Qnum Qden].
  set (h := if 2 * (n mod Zpos d) <? Zpos d
            then n / Zpos d
            else if Zpos d <? 2 * (n mod Zpos d)
                 then n / Zpos d + 1
                 else if Z.even (n / Zpos d)
                      then n / Zpos d else n / Zpos d + 1) in *.
  assert (E : (inject_Z h - (n # d) == (h * Zpos d - n) # d)%Q).
  { clear H1. clearbody h.
    unfold Qeq, Qminus, Qplus, Qopp, inject_Z.
    cbn [Qnum Qden]. rewrite ?Pos2Z.inj_mul. ring. }
  rewrite E. unfold Qle, Qabs. simpl. lia.
Qed.

Lemma rne_nonneg (x : Q) : (0 <= x)%Q -> 0 <= rne x.
Proof.
  destruct x as [n d]. intros Hx.
  assert (Hn : 0 <= n) by (unfold Qle in Hx; simpl in Hx; lia).
  unfold rne. cbn [Qnum Qden].
  assert (Hf : 0 <= n / Zpos d) by (apply Z.div_pos; lia).
  destruct (2 * (n mod Zpos d) <? Zpos d); [assumption|].
  destruct (Zpos d <? 2 * (n mod Zpos d)); [lia|].
  destruct (Z.even (n / Zpos d)); lia.
Qed.

Lemma pow2_pos (p : Z) : (0 < pow2 p)%Q.
Proof. unfold pow2. now apply Qpower_0_lt. Qed.

Lemma pow2_minus (a b : Z) : (pow2 (a - b) == pow2 a / pow2 b)%Q.
Proof. unfold pow2. apply Qpower_minus. discriminate. Qed.

Lemma pow2_nonneg_exp (a : Z) : 0 <= a -> (pow2 a == inject_Z (2 ^ a))%Q.
Proof. intros Ha. unfold pow2. symmetry. now apply Zpower_Qpower. Qed.

(** The exponent chosen for a positive number is not above it. *)
Lemma binade_below (a : Q) : (0 < a)%Q -> (pow2 (binade a) <= a)%Q.
Proof.
  intros Ha. unfold binade.
  set (e0 := Z.log2 (Qnum a) - Z.log2 (Zpos (Qden a))).
  destruct (Qle_bool (pow2 e0) a) eqn:E.
  - now apply Qle_bool_iff.
  - destruct a as [n d]. cbn [Qnum Qden] in *.
    assert (Hn : 0 < n) by (unfold Qlt in Ha; simpl in Ha; lia).
    pose proof (Z.log2_spec n Hn) as [Hn1 _].
    pose proof (Z.log2_spec (Zpos d) ltac:(lia)) as [_ Hd2].
    pose proof (Z.log2_nonneg n) as Hln.
    pose proof (Z.log2_nonneg (Zpos d)) as Hld.
    replace (e0 - 1) with (Z.log2 n - Z.succ (Z.log2 (Zpos d)))
      by (unfold e0; lia).
    rewrite pow2_minus, !pow2_nonneg_exp by lia.
    rewrite (Qmake_Qdiv n d).
    set (X := 2 ^ Z.log2 n) in *. set (Y := 2 ^ Z.succ (Z.log2 (Zpos d))) in *.
    assert (HX : 0 < X) by (unfold X; apply Z.pow_pos_nonneg; lia).
    assert (HY : 0 < Y) by (unfold Y; apply Z.pow_pos_nonneg; lia).
    apply Qle_shift_div_r.
    { change 0%Q with (inject_Z 0). rewrite <- Zlt_Qlt. exact HY. }
    setoid_replace (inject_Z n / inject_Z (Zpos d) * inject_Z Y)%Q
      with (inject_Z n * inject_Z Y / inject_Z (Zpos d))%Q
      by (field; discriminate).
    apply Qle_shift_div_l.
    { change 0%Q with (inject_Z 0). rewrite <- Zlt_Qlt. lia. }
    rewrite <- !inject_Z_mult, <- Zle_Qle. nia.
Qed.


(** Rounding a positive number to binary64 moves it by at most half a unit
    in the last place. *)
Lemma round_pos_error (a : Q) :
  (0 < a)%Q ->
  (Qabs (round_pos a - a) <= a * eps64 + tiny64)%Q /\ (0 <= round_pos a)%Q.
Proof.
  intros Ha. unfold round_pos.
  set (p := Z.max (binade a - 52) (-1074)).
  pose proof (pow2_pos p) as Hs.
  assert (Hx : (0 <= a / pow2 p)%Q).
  { apply Qle_shift_div_l; [exact Hs|]. rewrite Qmult_0_l.
    now apply Qlt_le_weak. }
  pose proof (rne_nearest _ Hx) as Hm.
  pose proof (rne_nonneg _ Hx) as Hm0.
  set (m := rne (a / pow2 p)) in *.
  split.
  - assert (E : (inject_Z m * pow2 p - a
                 == (inject_Z m - a / pow2 p) * pow2 p)%Q).
    { field. intros E0. rewrite E0 in Hs. discriminate Hs. }
    rewrite E, Qabs_Qmult, (Qabs_pos (pow2 p)) by now apply Qlt_le_weak.
    assert (Hp : (pow2 p <= a * (2 # 9007199254740992) + pow2 (-1074))%Q).
    { unfold p. destruct (Z.max_spec (binade a - 52) (-1074))
        as [[_ ->] | [_ ->]].
      - rewrite <- (Qplus_0_l (pow2 (-1074))) at 1.
        apply Qplus_le_compat; [|apply Qle_refl].
        apply Qmult_le_0_compat; [now apply Qlt_le_weak | discriminate].
      - rewrite <- (Qplus_0_r (pow2 (binade a - 52))).
        apply Qplus_le_compat; [|apply Qlt_le_weak, pow2_pos].
        rewrite pow2_minus.
        pose proof (binade_below a Ha) as Hb.
        change (pow2 52) with (4503599627370496%Q).
        apply Qle_shift_div_r; [reflexivity|].
        setoid_replace (a * (2 # 9007199254740992) * 4503599627370496)%Q
          with a by (field). exact Hb. }
    apply Qle_trans with ((1 # 2) * pow2 p)%Q.
    + apply Qmult_le_compat_r; [exact Hm | now apply Qlt_le_weak].
    + apply Qle_trans
        with ((1 # 2) * (a * (2 # 9007199254740992) + pow2 (-1074)))%Q.
      * apply Qmult_le_l; [reflexivity | exact Hp].
      * unfold eps64, tiny64.
        setoid_replace (pow2 (-1075)) with ((1 # 2) * pow2 (-1074))%Q
          by reflexivity.
        setoid_replace ((1 # 2) * (a * (2 # 9007199254740992)
                                   + pow2 (-1074)))%Q
          with (a * (1 # 9007199254740992) + (1 # 2) * pow2 (-1074))%Q
          by (field).
        apply Qle_refl.
  - apply Qmult_le_0_compat; [|now apply Qlt_le_weak].
    change 0%Q with (inject_Z 0). now rewrite <- Zle_Qle.
Qed.

(** Rounding to binary64 moves a number by at most its own magnitude
    times [2^-53], plus [2^-1075] near zero, and keeps its sign. *)
Lemma round64_error (q : Q) :
  (Qabs (round64 q - q) <= Qabs q * eps64 + tiny64)%Q
  /\ ((0 <= q)%Q -> (0 <= round64 q)%Q).
Proof.
  unfold round64. rewrite Qred_correct.
  destruct q as [n d]. destruct n as [|n|n]; cbn [Qnum].
  - split; [|intros _; apply Qle_refl].
    setoid_replace (0 - (0 # d))%Q with 0%Q by reflexivity.
    rewrite Qmult_0_l, Qplus_0_l. apply Qlt_le_weak, pow2_pos.
  - destruct (round_pos_error (Zpos n # d)) as [H1 H2]; [reflexivity|].
    split; [|intros _; exact H2].
    rewrite (Qabs_pos (Zpos n # d)) by discriminate. exact H1.
  - destruct (round_pos_error (- (Zneg n # d))) as [H1 H2]; [reflexivity|].
    split.
    + setoid_replace (- round_pos (- (Zneg n # d)) - (Zneg n # d))%Q
        with (- (round_pos (- (Zneg n # d)) - - (Zneg n # d)))%Q by ring.
      rewrite Qabs_opp, (Qabs_neg (Zneg n # d)) by discriminate. exact H1.
    + intros Hq. exfalso. unfold Qle in Hq. simpl in Hq. lia.
Qed.

(** ** [format_number] *)

Lemma format_number_millions (q : Q) :
  (1000000 <= q)%Q ->
  format_number (Num q) = fmt2 (Num (fdiv q 1000000)) ++ "M".
Proof.
  intros H. unfold format_number.
  now rewrite (proj2 (ge_num_true q 1000000) H).
Qed.

Lemma format_number_thousands (q : Q) :
  (1000 <= q)%Q -> (q < 1000000)%Q ->
  format_number (Num q) = fmt2 (Num (fdiv q 1000)) ++ "K".
Proof.
  intros Hlo Hhi. unfold format_number.
  rewrite (ge_num_false q 1000000 Hhi).
  now rewrite (proj2 (ge_num_true q 1000) Hlo).
Qed.

Lemma format_number_plain (q : Q) :
  (q < 1000)%Q -> format_number (Num q) = fmt2 (Num q).
Proof.
  intros H. unfold format_number.
  rewrite (ge_num_false q 1000000), (ge_num_false q 1000 H); [reflexivity|].
  eapply Qlt_trans; [exact H | reflexivity].
Qed.

(** C6. [format_number] renders a value of at least 1,000,000 as the
    two-decimal text of its float quotient by 1,000,000 followed by [M], a
    value from 1,000 up to but excluding 1,000,000 as the two-decimal text
    of its float quotient by 1,000 followed by [K], and any other value
    (NaN included) as its own two-decimal text.  The float quotient is the
    exact one rounded once to binary64; the two-decimal text of a number
    reads back as its sign and the number of hundredths nearest to it, the
    even one when two are as near.  500, 5,000 and 5,000,000 give
    "500.00", "5.00K" and "5.00M". *)
Theorem format_number_spec (q : Q) :
  ((1000000 <= q)%Q ->
     format_number (Num q) = fmt2 (Num (fdiv q 1000000)) ++ "M")
  /\ ((1000 <= q)%Q -> (q < 1000000)%Q ->
     format_number (Num q) = fmt2 (Num (fdiv q 1000)) ++ "K")
  /\ ((q < 1000)%Q -> format_number (Num q) = fmt2 (Num q))
  /\ format_number NaN = "nan"
  /\ (Qabs (fdiv q 1000000 - q / 1000000)
      <= Qabs (q / 1000000) * eps64 + tiny64)%Q
  /\ (Qabs (fdiv q 1000 - q / 1000) <= Qabs (q / 1000) * eps64 + tiny64)%Q
  /\ (forall x : Q,
        read_fixed2 (fmt2 (Num x)) = Some (Qnum x <? 0, round_hundredths x)
        /\ (Qabs (inject_Z (round_hundredths x) - 100 * Qabs x) <= 1 # 2)%Q
        /\ ((Qabs (inject_Z (round_hundredths x) - 100 * Qabs x) == 1 # 2)%Q
            -> Z.even (round_hundredths x) = true))
  /\ format_number (Num 500) = "500.00"
  /\ format_number (Num 5000) = "5.00K"
  /\ format_number (Num 5000000) = "5.00M"
  /\ format_number (Num 2835) = "2.83K"
  /\ format_number (Num 1015) = "1.01K"
  /\ format_number (Num 12345) = "12.35K"
  /\ format_number (Num 1234567) = "1.23M"
  /\ format_number (Num (reading (2675 # 1000))) = "2.67"
  /\ format_number (Num (reading (125 # 1000))) = "0.12"
  /\ format_number (Num (reading (5 # 1000))) = "0.01"
  /\ format_number (Num (reading (- 12345 # 10))) = "-1234.50".
Proof.
  split; [apply format_number_millions|].
  split; [apply format_number_thousands|].
  split; [apply format_number_plain|].
  split; [reflexivity|].
  split; [apply round64_error|].
  split; [apply round64_error|].
  split.
  { intros x. split; [apply read_fixed2_fmt2 | apply round_hundredths_nearest]. }
  repeat split; vm_compute; reflexivity.
Qed.

Lemma format_number_spec_witness :
  format_number (Num 2500000) = fmt2 (Num (fdiv 2500000 1000000)) ++ "M"
  /\ format_number (Num 2500) = fmt2 (Num (fdiv 2500 1000)) ++ "K"
  /\ format_number (Num 25) = fmt2 (Num 25).
Proof.
  split; [|split].
  - apply (proj1 (format_number_spec 2500000)). discriminate.
  - apply (proj1 (proj2 (format_number_spec 2500))); [discriminate | reflexivity].
  - apply (proj1 (proj2 (proj2 (format_number_spec 25)))). reflexivity.
Defined.



Example day_name_known :
  day_name (mkTimestamp 1970 1 1 0 0 0) = "Thursday"
  /\ day_name (mkTimestamp 2000 2 29 12 0 0) = "Tuesday"
  /\ day_name (mkTimestamp 2024 1 1 23 30 0) = "Monday".
Proof. repeat split. Qed.

(** The arithmetic on known binary64 values: 0.1 + 0.2, and the quotient
    2835 / 1000. *)
Example binary64_known :
  fadd (reading (1 # 10)) (reading (2 # 10))
  = 1351079888211149 # 4503599627370496
  /\ fdiv 2835 1000 = 3191926235898839 # 1125899906842624
  /\ reading (1 # 10) = 3602879701896397 # 36028797018963968.
Proof. repeat split; vm_compute; reflexivity. Qed.

Example fmt2_rounding :
  fmt2 (Num (5 # 1000)) = "0.00" /\ fmt2 (Num (15 # 1000)) = "0.02"
  /\ fmt2 (Num (-1 # 1000)) = "-0.00"
  /\ fmt2_comma (Num 1234567) = "1,234,567.00"
  /\ format_number (Num (999999999 # 1000)) = "1000.00K".
Proof. repeat split; vm_compute; reflexivity. Qed.

(** ** Filtering *)

Lemma year_eqb_eq (a b : year) : year_eqb a b = true <-> a = b.
Proof.
  destruct a as [m|s], b as [n|t]; simpl;
    rewrite ?Z.eqb_eq, ?String.eqb_eq; split; intros E;
    try discriminate; try (now subst); now inversion E.
Qed.

Lemma isin_year_In (x : year) (sel : list year) :
  isin_year x sel = true <-> In x sel.
Proof.
  unfold isin_year. rewrite existsb_exists. split.
  - intros (y & Hy & E). apply year_eqb_eq in E. now subst.
  - intros Hx. exists x. split; [assumption | now apply year_eqb_eq].
Qed.

Lemma isin_Z_In (x : Z) (sel : list Z) :
  isin_Z x sel = true <-> In x sel.
Proof.
  unfold isin_Z. rewrite existsb_exists. split.
  - intros (y & Hy & E). apply Z.eqb_eq in E. now subst.
  - intros Hx. exists x. split; [assumption | apply Z.eqb_refl].
Qed.

Lemma between_spec (x lo hi : Z) :
  between x lo hi = true <-> lo <= x <= hi.
Proof. unfold between. rewrite andb_true_iff, !Z.leb_le. reflexivity. Qed.

Lemma passes_spec (ys : list year) (ms : list Z) (lo hi : Z) (r : row) :
  passes ys ms (lo, hi) r = true
  <-> In (Year r) ys /\ In (Month r) ms /\ lo <= day_of r <= hi.
Proof.
  unfold passes. simpl fst. simpl snd.
  rewrite !andb_true_iff, isin_year_In, isin_Z_In, between_spec. tauto.
Qed.

(** C2. A row of the dataset is in the Filtered Dataset exactly when its
    Year is one of the selected years, its Month one of the selected months,
    and the day of the month of its DateTime lies in the inclusive range
    [lo, hi]. *)
Theorem filter_data_spec (data : list row) (ys : list year) (ms : list Z)
    (lo hi : Z) (r : row) :
  In r data ->
  (In r (filter_data data ys ms (lo, hi))
   <-> In (Year r) ys /\ In (Month r) ms /\ lo <= day_of r <= hi).
Proof.
  intros Hr. unfold filter_data. rewrite filter_In, passes_spec. tauto.
Qed.

Lemma filter_data_spec_witness :
  In (january 5 y2021) (filter_data [january 5 y2021] [y2021] [1] (1, 31))
  <-> In y2021 [y2021] /\ In 1 [1] /\ 1 <= 5 <= 31.
Proof.
  apply (filter_data_spec [january 5 y2021] [y2021] [1] 1 31
           (january 5 y2021)).
  simpl. left. reflexivity.
Defined.

Lemma filter_length_le {A : Type} (p q : A -> bool) (l : list A) :
  (forall x, p x = true -> q x = true) ->
  (List.length (filter p l) <= List.length (filter q l))%nat.
Proof.
  intros Hpq. induction l as [|x l IH]; simpl; [lia|].
  destruct (p x) eqn:Ep.
  - rewrite (Hpq x Ep). simpl. lia.
  - destruct (q x); simpl; lia.
Qed.

(** Narrowing all three dimensions at once never adds a row. *)
Lemma filter_data_narrow (data : list row) (ys1 ys2 : list year)
    (ms1 ms2 : list Z) (d1 d2 : Z * Z) :
  incl ys2 ys1 -> incl ms2 ms1 -> fst d1 <= fst d2 -> snd d2 <= snd d1 ->
  (List.length (filter_data data ys2 ms2 d2)
   <= List.length (filter_data data ys1 ms1 d1))%nat.
Proof.
  intros Hy Hm Hlo Hhi. unfold filter_data. apply filter_length_le.
  intros r. destruct d1 as [lo1 hi1], d2 as [lo2 hi2]. simpl in Hlo, Hhi.
  rewrite !passes_spec. intros (H1 & H2 & H3).
  repeat split; [now apply Hy | now apply Hm | lia | lia].
Qed.

(** C5. When a selection is narrowed in one dimension, the Filtered Dataset
    does not grow. *)
Theorem filter_data_monotone (data : list row) (ys1 ys2 : list year)
    (ms1 ms2 : list Z) (d1 d2 : Z * Z) :
  narrows ys1 ms1 d1 ys2 ms2 d2 ->
  (List.length (filter_data data ys2 ms2 d2)
   <= List.length (filter_data data ys1 ms1 d1))%nat.
Proof.
  intros [(Hy & -> & ->) | [(-> & Hm & ->) | (-> & -> & Hlo & Hhi)]];
    apply filter_data_narrow;
    auto using incl_refl, Z.le_refl.
Qed.

Lemma filter_data_monotone_witness :
  Nat.le
    (List.length (filter_data [january 5 y2021; january 20 y2022]
                    [y2021; y2022] [1] (10, 25)))
    (List.length (filter_data [january 5 y2021; january 20 y2022]
                    [y2021; y2022] [1] (1, 31))).
Proof.
  apply filter_data_monotone. right. right. simpl. repeat split; lia.
Defined.

(** ** Grouping *)

(** The equality test of a key type decides equality. *)
Class KeyOk (K : Type) `{Key K} : Prop := {
  keqb_eq : forall a b : K, keqb a b = true <-> a = b
}.

#[export] Instance KeyOk_string : KeyOk string.
Proof. constructor. exact String.eqb_eq. Qed.

#[export] Instance KeyOk_Z : KeyOk Z.
Proof. constructor. exact Z.eqb_eq. Qed.

#[export] Instance KeyOk_year : KeyOk year.
Proof. constructor. exact year_eqb_eq. Qed.

#[export] Instance KeyOk_pair {A B : Type} `{KeyOk A} `{KeyOk B} :
  KeyOk (A * B).
Proof.
  constructor. intros [a1 a2] [b1 b2]. simpl.
  rewrite andb_true_iff, !keqb_eq. split.
  - intros [-> ->]. reflexivity.
  - intros E. inversion E. auto.
Qed.

Section SortingFacts.
Context {A : Type} (le : A -> A -> bool).

Lemma insert_by_perm (x : A) (l : list A) :
  Permutation (insert_by le x l) (x :: l).
Proof.
  induction l as [|y l IH]; simpl; [reflexivity|].
  destruct (le x y); [reflexivity|].
  rewrite IH. apply perm_swap.
Qed.

Lemma sort_by_perm (l : list A) : Permutation (sort_by le l) l.
Proof.
  induction l as [|x l IH]; simpl; [reflexivity|].
  rewrite insert_by_perm. now apply perm_skip.
Qed.

Lemma sort_by_In (x : A) (l : list A) : In x (sort_by le l) <-> In x l.
Proof.
  split; apply Permutation_in;
    [apply sort_by_perm | apply Permutation_sym, sort_by_perm].
Qed.

Lemma sort_by_nil (l : list A) : sort_by le l = [] -> l = [].
Proof.
  intros E. apply Permutation_nil. rewrite <- E. apply sort_by_perm.
Qed.
End SortingFacts.

Section GroupingFacts.
Context {K : Type} `{KeyOk K}.

Lemma keqb_refl (k : K) : keqb k k = true.
Proof. now apply keqb_eq. Qed.


Lemma unique_In (x : K) (l : list K) : In x (unique l) <-> In x l.
Proof.
  induction l as [|y l IH]; simpl; [reflexivity|].
  rewrite filter_In, IH. cbv beta. split.
  - intros [E | [Hx _]]; auto.
  - intros [E | Hx]; [now left|].
    destruct (keqb x y) eqn:E.
    + apply keqb_eq in E. left. now symmetry.
    + right. split; [assumption | reflexivity].
Qed.

Lemma unique_NoDup (l : list K) : NoDup (unique l).
Proof.
  induction l as [|y l IH]; simpl; constructor.
  - rewrite filter_In. intros [_ E]. now rewrite keqb_refl in E.
  - now apply NoDup_filter.
Qed.

Lemma group_keys_In (key : row -> K) (rows : list row) (k : K) :
  In k (group_keys key rows) <-> exists r, In r rows /\ key r = k.
Proof.
  unfold group_keys. rewrite sort_by_In, unique_In, in_map_iff.
  split; intros (r & H1 & H2); exists r; auto.
Qed.

Lemma group_keys_NoDup (key : row -> K) (rows : list row) :
  NoDup (group_keys key rows).
Proof.
  unfold group_keys.
  eapply Permutation_NoDup; [apply Permutation_sym, sort_by_perm|].
  apply unique_NoDup.
Qed.












End GroupingFacts.



(** numpy's sum of ten readings of 0.1 is 1, where adding them one after
    the other gives 0.9999999999999999; the compensated sum of a group
    recovers what the plain additions lose. *)
Example sums_known :
  sumQ (repeat (reading (1 # 10)) 10) = 1%Q
  /\ add_all 0 (repeat (reading (1 # 10)) 10)
     = 9007199254740991 # 9007199254740992
  /\ group_sum [10000000000000000; 1; 1]%Q = 10000000000000002%Q
  /\ add_all 0 [10000000000000000; 1; 1]%Q = 10000000000000000%Q.
Proof. repeat split; vm_compute; reflexivity. Qed.

Example groupby_sum_hours :
  let mk h t := mkRow (mkTimestamp 2021 1 1 h 0 0) t 0 0 0 y2021 1 "January" in
  groupby_sum hour_of [mk 3 10%Q; mk 3 20%Q; mk 5 20%Q; mk 3 5%Q]
  = [(3, 35%Q); (5, 20%Q)].
Proof. vm_compute. reflexivity. Qed.

(** Years read as numbers are listed in numeric order, years kept as text
    in the order of their characters. *)
Example year_labels_order :
  group_keys Year [january 1 (YearInt 1000); january 2 (YearInt 999)]
  = [YearInt 999; YearInt 1000]
  /\ group_keys Year [january 1 (YearText "999"); january 2 (YearText "1000")]
     = [YearText "1000"; YearText "999"].
Proof. split; reflexivity. Qed.

(** ** Extremes *)

Lemma Qltb_lt (a b : Q) : Qltb a b = true <-> (a < b)%Q.
Proof.
  unfold Qltb. rewrite negb_true_iff. split.
  - intros E. apply Qnot_le_lt. intros Hle.
    apply Qle_bool_iff in Hle. congruence.
  - intros Hlt. destruct (Qle_bool b a) eqn:E; [|reflexivity].
    apply Qle_bool_iff in E. exfalso. exact (Qlt_not_le _ _ Hlt E).
Qed.

Lemma Qltb_ge (a b : Q) : Qltb a b = false <-> (b <= a)%Q.
Proof.
  unfold Qltb. rewrite negb_false_iff. apply Qle_bool_iff.
Qed.

Lemma Qmax_cases (a b : Q) :
  (Qmax a b = a /\ (b <= a)%Q) \/ (Qmax a b = b /\ (a < b)%Q).
Proof.
  unfold Qmax. destruct (Qltb a b) eqn:E.
  - right. split; [reflexivity | now apply Qltb_lt].
  - left. split; [reflexivity | now apply Qltb_ge].
Qed.

(** The running maximum is one of the numbers seen, and none exceeds it. *)
Lemma fold_Qmax_spec (t : list Q) (x : Q) :
  In (fold_left Qmax t x) (x :: t)
  /\ forall y, In y (x :: t) -> (y <= fold_left Qmax t x)%Q.
Proof.
  revert x. induction t as [|z t IH]; intros x; simpl.
  - split; [now left|]. intros y [<- | []]. apply Qle_refl.
  - destruct (IH (Qmax x z)) as [Hin Hle]. split.
    + destruct Hin as [E | Hin]; [|now right; right].
      rewrite <- E.
      destruct (Qmax_cases x z) as [[Em _] | [Em _]]; rewrite Em; auto.
    + intros y Hy.
      assert (Hx : (x <= Qmax x z)%Q /\ (z <= Qmax x z)%Q).
      { destruct (Qmax_cases x z) as [[-> Hzx] | [-> Hxz]]; split;
          auto using Qle_refl, Qlt_le_weak. }
      destruct Hx as [Hx Hz].
      assert (Hm : (Qmax x z <= fold_left Qmax t (Qmax x z))%Q)
        by (apply Hle; now left).
      destruct Hy as [<- | [<- | Hy]].
      * eapply Qle_trans; eauto.
      * eapply Qle_trans; eauto.
      * apply Hle. now right.
Qed.

Lemma maxQ_spec (l : list Q) :
  l <> [] ->
  exists m, maxQ l = Num m /\ In m l /\ forall y, In y l -> (y <= m)%Q.
Proof.
  destruct l as [|x t]; [congruence|]. intros _.
  exists (fold_left Qmax t x). split; [reflexivity|]. apply fold_Qmax_spec.
Qed.

Lemma filter_first {A : Type} (p : A -> bool) (l : list A) (x : A)
    (rest : list A) :
  filter p l = x :: rest ->
  exists pre post,
    l = (pre ++ x :: post)%list /\ p x = true
    /\ (forall y, In y pre -> p y = false).
Proof.
  induction l as [|a l IH]; simpl; [discriminate|].
  destruct (p a) eqn:Ea.
  - intros E. inversion E; subst. exists [], l. simpl. tauto.
  - intros E. destruct (IH E) as (pre & post & -> & Hx & Hpre).
    exists (a :: pre), post. simpl. repeat split; auto.
    intros y [<- | Hy]; auto.
Qed.

(** The rows holding the largest Total of a non-empty table: there is one,
    and the first of them comes after rows of smaller Total only. *)
Lemma max_total_rows_spec (rows : list row) :
  rows <> [] ->
  exists m r0 rest pre post,
    maxQ (map Total rows) = Num m
    /\ (forall x, In x rows -> (Total x <= m)%Q)
    /\ max_total_rows rows = r0 :: rest
    /\ max_total_rows rows = filter (fun x => Qeq_bool (Total x) m) rows
    /\ rows = (pre ++ r0 :: post)%list
    /\ Total r0 == m
    /\ (forall x, In x pre -> (Total x < m)%Q).
Proof.
  intros Hne.
  destruct (maxQ_spec (map Total rows)) as (m & Em & Hin & Hle).
  { destruct rows; [congruence | discriminate]. }
  assert (Hall : forall x, In x rows -> (Total x <= m)%Q).
  { intros x Hx. apply Hle. now apply in_map. }
  assert (Ef : max_total_rows rows
               = filter (fun x => Qeq_bool (Total x) m) rows).
  { unfold max_total_rows. rewrite Em. reflexivity. }
  destruct (max_total_rows rows) as [|r0 rest] eqn:Et.
  - exfalso. apply in_map_iff in Hin. destruct Hin as (r & Er & Hr).
    assert (Hf : In r (filter (fun x => Qeq_bool (Total x) m) rows)).
    { apply filter_In. split; [assumption|].
      rewrite Er. apply Qeq_bool_refl. }
    rewrite <- Ef in Hf. contradiction.
  - destruct (filter_first _ _ _ _ (eq_sym Ef))
      as (pre & post & Erows & Hr0 & Hpre).
    exists m, r0, rest, pre, post. repeat split; auto.
    + now apply Qeq_bool_iff.
    + intros x Hx.
      assert (Hxle : (Total x <= m)%Q).
      { apply Hall. rewrite Erows. apply in_or_app. now left. }
      apply Qle_lteq in Hxle. destruct Hxle as [Hlt | Heq]; [assumption|].
      apply Qeq_bool_iff in Heq. rewrite (Hpre x Hx) in Heq. discriminate.
Qed.

Section SortedFacts.
Context {A : Type} (le : A -> A -> bool).
Hypothesis le_total : forall a b, le a b = true \/ le b a = true.
Hypothesis le_trans :
  forall a b c, le a b = true -> le b c = true -> le a c = true.

Let R (a b : A) : Prop := le a b = true.

Lemma insert_by_sorted (x : A) (l : list A) :
  StronglySorted R l -> StronglySorted R (insert_by le x l).
Proof.
  induction l as [|y l IH]; intros Hs; simpl.
  - constructor; constructor.
  - apply StronglySorted_inv in Hs. destruct Hs as [Hs Hy].
    destruct (le x y) eqn:E.
    + constructor; [now constructor|]. constructor; [exact E|].
      eapply Forall_impl; [|exact Hy]. intros z Hz. exact (le_trans _ _ _ E Hz).
    + constructor; [now apply IH|].
      eapply Permutation_Forall;
        [apply Permutation_sym, insert_by_perm|].
      constructor; [|exact Hy].
      destruct (le_total x y) as [H | H]; [congruence | exact H].
Qed.

Lemma sort_by_sorted (l : list A) : StronglySorted R (sort_by le l).
Proof.
  induction l as [|x l IH]; simpl; [constructor|].
  now apply insert_by_sorted.
Qed.

(** The head of a sorted list is below every element. *)
Lemma sort_by_head_min (l : list A) (h : A) (t : list A) :
  sort_by le l = h :: t -> forall y, In y l -> le h y = true.
Proof.
  intros E y Hy. pose proof (sort_by_sorted l) as Hs. rewrite E in Hs.
  apply StronglySorted_inv in Hs. destruct Hs as [_ Hall].
  apply (sort_by_In le) in Hy. rewrite E in Hy.
  destruct Hy as [<- | Hy].
  - destruct (le_total h h); assumption.
  - rewrite Forall_forall in Hall. now apply Hall.
Qed.
End SortedFacts.

Section ExtremeLabels.
Context {K : Type} `{KeyOk K}.

Lemma fold_pick_In {X : Type} (step : X -> X -> X) (t : list X) (x : X) :
  (forall a b, step a b = a \/ step a b = b) ->
  In (fold_left step t x) (x :: t).
Proof.
  intros Hstep. revert x. induction t as [|y t IH]; intros x; simpl.
  - now left.
  - destruct (IH (step x y)) as [E | Hin]; [|now right; right].
    rewrite <- E. destruct (Hstep x y) as [-> | ->]; auto.
Qed.

Lemma idxmax_ok (s : list (K * Q)) :
  s <> [] -> exists k, idxmax s = Ok k /\ In k (map fst s).
Proof.
  destruct s as [|kv t]; [congruence|]. intros _.
  eexists. split; [reflexivity|]. apply in_map.
  apply fold_pick_In. intros a b. destruct (Qltb (snd a) (snd b)); auto.
Qed.

Lemma idxmin_ok (s : list (K * Q)) :
  s <> [] -> exists k, idxmin s = Ok k /\ In k (map fst s).
Proof.
  destruct s as [|kv t]; [congruence|]. intros _.
  eexists. split; [reflexivity|]. apply in_map.
  apply fold_pick_In. intros a b. destruct (Qltb (snd b) (snd a)); auto.
Qed.

Lemma loc_ok (s : list (K * Q)) (k : K) :
  In k (map fst s) -> exists v, loc s k = Ok v.
Proof.
  induction s as [|[k' v] s IH]; simpl; [contradiction|].
  intros [-> | Hin].
  - rewrite keqb_refl. now exists v.
  - destruct (keqb k' k); [now exists v | now apply IH].
Qed.

Lemma groupby_sum_keys (key : row -> K) (rows : list row) :
  map fst (groupby_sum key rows) = group_keys key rows.
Proof. unfold groupby_sum. rewrite map_map. simpl. apply map_id. Qed.

Lemma groupby_sum_nonempty (key : row -> K) (rows : list row) :
  rows <> [] -> groupby_sum key rows <> [].
Proof.
  destruct rows as [|r rows]; [congruence|]. intros _ E.
  assert (Hin : In (key r) (map fst (groupby_sum key (r :: rows)))).
  { rewrite groupby_sum_keys. apply group_keys_In. exists r. simpl. auto. }
  rewrite E in Hin. contradiction.
Qed.

Lemma count_pos (x : K) (l : list K) : In x l -> (1 <= count x l)%nat.
Proof.
  intros Hx. unfold count.
  assert (Hf : In x (filter (keqb x) l))
    by (apply filter_In; split; [assumption | apply keqb_refl]).
  destruct (filter (keqb x) l); [contradiction | simpl; lia].
Qed.

Lemma count_In (x : K) (l : list K) : (1 <= count x l)%nat -> In x l.
Proof.
  unfold count. intros Hc.
  destruct (filter (keqb x) l) as [|y t] eqn:E; [simpl in Hc; lia|].
  assert (Hy : In y (filter (keqb x) l)) by (rewrite E; now left).
  apply filter_In in Hy. destruct Hy as [Hy Exy].
  apply keqb_eq in Exy. now subst.
Qed.

Lemma max_of_bound {X : Type} (f : X -> nat) (l : list X) (x : X) :
  In x l -> (f x <= fold_right Nat.max 0%nat (map f l))%nat.
Proof.
  induction l as [|y l IH]; simpl; [contradiction|].
  intros [-> | Hx]; [lia|]. specialize (IH Hx). lia.
Qed.

Lemma max_of_attained {X : Type} (f : X -> nat) (l : list X) :
  l <> [] -> exists x, In x l /\ f x = fold_right Nat.max 0%nat (map f l).
Proof.
  induction l as [|y l IH]; [congruence|]. intros _. simpl.
  destruct l as [|z l].
  - exists y. simpl. split; [now left | lia].
  - destruct IH as (x & Hx & Ex); [discriminate|].
    destruct (Nat.max_spec (f y) (fold_right Nat.max 0%nat (map f (z :: l))))
      as [[_ E] | [_ E]]; rewrite E.
    + exists x. split; [now right | exact Ex].
    + exists y. split; [now left | reflexivity].
Qed.

Hypothesis kleb_total : forall a b : K, kleb a b = true \/ kleb b a = true.
Hypothesis kleb_trans :
  forall a b c : K, kleb a b = true -> kleb b c = true -> kleb a c = true.

(** The first value [mode] returns on a non-empty column: it occurs in the
    column, no value occurs more often, and of the values occurring as often
    it is the least. *)
Lemma mode_first (l : list K) :
  l <> [] ->
  exists h, at0 (mode l) = Ok h
    /\ In h l
    /\ (forall x, (count x l <= count h l)%nat)
    /\ (forall x, count x l = count h l -> kleb h x = true).
Proof.
  intros Hne. unfold mode.
  set (best := fold_right Nat.max 0%nat (map (fun x => count x l) l)).
  set (modes := filter (fun x => Nat.eqb (count x l) best) (unique l)).
  assert (Hmodes : forall x, In x modes <-> In x l /\ count x l = best).
  { intros x. unfold modes. rewrite filter_In, unique_In, Nat.eqb_eq.
    reflexivity. }
  destruct (max_of_attained (fun x => count x l) l Hne) as (x0 & Hx0 & Ex0).
  fold best in Ex0.
  destruct (sort_by kleb modes) as [|h t] eqn:Es.
  - apply sort_by_nil in Es.
    assert (Hin : In x0 modes) by (apply Hmodes; auto).
    rewrite Es in Hin. contradiction.
  - assert (Hh : In h modes).
    { apply (sort_by_In kleb). rewrite Es. now left. }
    apply Hmodes in Hh. destruct Hh as [Hhl Hhc].
    exists h. split; [reflexivity|]. split; [assumption|].
    assert (Hpos : (1 <= best)%nat) by (rewrite <- Hhc; now apply count_pos).
    split.
    + intros x. rewrite Hhc.
      destruct (Nat.le_gt_cases 1 (count x l)) as [Hc | Hc]; [|lia].
      apply count_In in Hc.
      exact (max_of_bound (fun y => count y l) l x Hc).
    + intros x Ex. rewrite Hhc in Ex.
      apply (sort_by_head_min kleb kleb_total kleb_trans modes h t Es).
      apply Hmodes. split; [|assumption].
      apply count_In. lia.
Qed.
End ExtremeLabels.

Lemma mode_first_hour (hours : list Z) :
  hours <> [] ->
  exists h, at0 (mode hours) = Ok h
    /\ In h hours
    /\ (forall x, (count x hours <= count h hours)%nat)
    /\ (forall x, count x hours = count h hours -> h <= x).
Proof.
  intros Hne.
  destruct (mode_first (K := Z)) with (l := hours)
    as (h & E & Hin & Hmax & Hmin); auto.
  - intros a b. simpl. rewrite !Z.leb_le. lia.
  - intros a b c. simpl. rewrite !Z.leb_le. lia.
  - exists h. repeat split; auto.
    intros x Ex. apply Z.leb_le. now apply Hmin.
Qed.


(** ** The report *)

Lemma filter_data_no_years (data : list row) (ms : list Z) (d : Z * Z) :
  filter_data data [] ms d = [].
Proof.
  unfold filter_data. induction data as [|r data IH]; simpl; auto.
Qed.

Ltac bind_ok lem :=
  let k := fresh "k" in
  let E := fresh "E" in
  destruct lem as (k & E & ?); rewrite E; cbn [bind].

Ltac bind_loc :=
  match goal with
  | |- context [loc ?s ?k] =>
      let v := fresh "v" in
      let E := fresh "E" in
      destruct (loc_ok s k) as (v & E);
      [assumption | rewrite E; cbn [bind]]
  end.

(** A sort of the weekday sums that keeps entries of equal sums in the
    order it finds them. *)
Lemma desc_total (a b : string * Q) :
  Qle_bool (snd b) (snd a) = true \/ Qle_bool (snd a) (snd b) = true.
Proof.
  rewrite !Qle_bool_iff.
  destruct (Qlt_le_dec (snd a) (snd b)) as [Hlt | Hle];
    [right; now apply Qlt_le_weak | left; exact Hle].
Qed.

Lemma desc_trans (a b c : string * Q) :
  Qle_bool (snd b) (snd a) = true -> Qle_bool (snd c) (snd b) = true ->
  Qle_bool (snd c) (snd a) = true.
Proof. rewrite !Qle_bool_iff. intros H1 H2. eapply Qle_trans; eauto. Qed.

Lemma stable_sort_sorted (s : list (string * Q)) :
  StronglySorted (fun a b => (snd b <= snd a)%Q)
    (sort_by (fun a b : string * Q => Qle_bool (snd b) (snd a)) s).
Proof.
  pose proof (sort_by_sorted _ desc_total desc_trans s) as Hs.
  induction Hs as [|a l Hs IH Hall]; constructor; [exact IH|].
  eapply Forall_impl; [|exact Hall].
  intros b Hb. now apply Qle_bool_iff.
Qed.

Definition stable_sort : sort_values :=
  {| sort_desc := sort_by (fun a b : string * Q => Qle_bool (snd b) (snd a));
     sort_desc_perm := sort_by_perm _;
     sort_desc_sorted := stable_sort_sorted |}.

(** On a non-empty Filtered Dataset every lookup of [main] succeeds. *)
Lemma main_returns (fsqrt : Q -> Q) (sv : sort_values) (data : list row)
    (year_filter : list year) (month_filter : list Z) (day_filter : Z * Z) :
  filter_data data year_filter month_filter day_filter <> [] ->
  exists rep, main fsqrt sv data year_filter month_filter day_filter = Ok rep.
Proof.
  intros Hne. unfold main. cbv zeta.
  destruct year_filter as [|y ys].
  { now rewrite filter_data_no_years in Hne. }
  set (fd := filter_data data (y :: ys) month_filter day_filter) in *.
  cbn [bind].
  bind_ok (idxmax_ok _ (groupby_sum_nonempty Year fd Hne)).
  bind_ok (idxmin_ok _ (groupby_sum_nonempty Year fd Hne)).
  do 2 bind_loc.
  bind_ok (idxmax_ok _ (groupby_sum_nonempty Month fd Hne)).
  bind_ok (idxmin_ok _ (groupby_sum_nonempty Month fd Hne)).
  do 2 bind_loc.
  bind_ok (idxmax_ok _ (groupby_sum_nonempty hour_of fd Hne)).
  bind_ok (idxmin_ok _ (groupby_sum_nonempty hour_of fd Hne)).
  do 2 bind_loc.
  destruct (max_total_rows_spec fd Hne)
    as (m & r0 & rest & pre & post & Em & _ & Et & _).
  rewrite Et.
  destruct (mode_first_hour (map hour_of (r0 :: rest))) as (h & Eh & _);
    [discriminate|].
  rewrite Eh. cbn [map iloc0 bind].
  assert (Hw : sort_desc sv (groupby_sum weekday_of fd) <> []).
  { intros Es. apply (groupby_sum_nonempty weekday_of fd Hne).
    apply Permutation_nil. rewrite <- Es. apply sort_desc_perm. }
  bind_ok (idxmax_ok _ Hw).
  bind_ok (idxmin_ok _ Hw).
  eexists. reflexivity.
Qed.

Ltac bind_inv H :=
  repeat match type of H with
    | bind ?c _ = Ok _ =>
        let E := fresh "E" in
        destruct c eqn:E; cbn [bind] in H; [|discriminate H]
    end.

(** What a run of [main] that returns has displayed. *)
Lemma main_inv (fsqrt : Q -> Q) (sv : sort_values) (data : list row) (year_filter : list year)
    (month_filter : list Z) (day_filter : Z * Z) (rep : report) :
  main fsqrt sv data year_filter month_filter day_filter = Ok rep ->
  let fd := filter_data data year_filter month_filter day_filter in
  let total := Num (sumQ (map Total fd)) in
  iloc0 (map DateTime (max_total_rows fd)) = Ok (max_datetime rep)
  /\ at0 (mode (map hour_of (max_total_rows fd))) = Ok (peak_hour_freq rep)
  /\ table rep = fd
  /\ exists rest,
       magnitudes rep = mkShown TotalEnergy total (fmt2_comma total) :: rest
       /\ forall s, In s rest ->
            sh_metric s <> TotalEnergy
            /\ sh_text s = format_number (sh_value s).
Proof.
  intros Hm fd total. unfold main in Hm. cbv zeta in Hm.
  fold fd in Hm. fold total in Hm.
  bind_inv Hm. injection Hm as <-. cbn [max_datetime peak_hour_freq table magnitudes].
  repeat split; try assumption.
  eexists. split; [reflexivity|].
  intros s Hs. destruct Hs as [<- | Hs]; [split; [discriminate | reflexivity]|].
  apply in_app_or in Hs. destruct Hs as [Hs | Hs].
  - apply in_map_iff in Hs. destruct Hs as (yv & <- & _).
    split; [discriminate | reflexivity].
  - cbn [In app flat_map rate_stats] in Hs.
    repeat (destruct Hs as [<- | Hs]; [split; [discriminate | reflexivity]|]).
    contradiction.
Qed.

(** C3. On a non-empty Filtered Dataset, in particular one whose largest
    Total is held by two rows or more, [main] returns; the record it
    reports for the highest usage is the first row, in the order of the
    table, holding the largest Total; and the peak hour it reports is the
    mode of the hours of exactly the rows holding it, the smallest hour
    winning among equally frequent ones. *)
Theorem main_peak_record (fsqrt : Q -> Q) (sv : sort_values) (data : list row)
    (year_filter : list year) (month_filter : list Z) (day_filter : Z * Z) :
  let fd := filter_data data year_filter month_filter day_filter in
  fd <> [] ->
  exists rep m pre r0 post,
    main fsqrt sv data year_filter month_filter day_filter = Ok rep
    /\ maxQ (map Total fd) = Num m
    /\ (forall x, In x fd -> (Total x <= m)%Q)
    /\ fd = (pre ++ r0 :: post)%list
    /\ (forall x, In x pre -> (Total x < m)%Q)
    /\ Total r0 == m
    /\ max_datetime rep = DateTime r0
    /\ let tied := filter (fun x => Qeq_bool (Total x) m) fd in
       let hours := map hour_of tied in
       In (peak_hour_freq rep) hours
       /\ (forall h, (count h hours <= count (peak_hour_freq rep) hours)%nat)
       /\ (forall h, count h hours = count (peak_hour_freq rep) hours ->
                     peak_hour_freq rep <= h).
Proof.
  intros fd Hne.
  destruct (main_returns fsqrt sv data year_filter month_filter day_filter Hne)
    as (rep & Hrep).
  destruct (main_inv _ _ _ _ _ _ _ Hrep) as (Hdt & Hpk & _).
  fold fd in Hdt, Hpk.
  destruct (max_total_rows_spec fd Hne)
    as (m & r0 & rest & pre & post & Em & Hle & Et & Ef & Efd & Hr0 & Hpre).
  exists rep, m, pre, r0, post.
  repeat (split; [assumption|]).
  split.
  { rewrite Et in Hdt. simpl in Hdt. congruence. }
  cbv zeta. rewrite <- Ef.
  destruct (mode_first_hour (map hour_of (max_total_rows fd)))
    as (h & Eh & Hin & Hmax & Hmin).
  { rewrite Et. discriminate. }
  rewrite Eh in Hpk. injection Hpk as <-. auto.
Qed.

Lemma main_peak_record_witness :
  exists rep,
    main (fun x => x) stable_sort sample_rows [y2021] [1] (1, 31) = Ok rep
    /\ max_datetime rep = mkTimestamp 2021 1 2 5 0 0
    /\ peak_hour_freq rep = 5.
Proof.
  destruct (main_peak_record (fun x => x) stable_sort sample_rows [y2021] [1] (1, 31))
    as (rep & m & pre & r0 & post & Hrep & _).
  { discriminate. }
  exists rep. split; [exact Hrep|].
  vm_compute in Hrep. injection Hrep as <-. split; reflexivity.
Defined.

(** C1. Over an empty Filtered Dataset [main] raises instead of showing
    a "no data" state: with no year selected, the name [start_year] read at
    line 71 was never bound; otherwise [idxmax] at line 170 is applied to an
    empty series. *)
Theorem main_empty_raises (fsqrt : Q -> Q) (sv : sort_values) (data : list row)
    (year_filter : list year) (month_filter : list Z) (day_filter : Z * Z) :
  filter_data data year_filter month_filter day_filter = [] ->
  raises (main fsqrt sv data year_filter month_filter day_filter)
  /\ (year_filter = [] ->
      main fsqrt sv data year_filter month_filter day_filter
      = Err UnboundLocalError).
Proof.
  intros He. unfold raises, main. cbv zeta. rewrite He.
  destruct year_filter; cbn [bind].
  - split; [eexists; reflexivity | reflexivity].
  - split; [eexists; reflexivity | discriminate].
Qed.

Lemma main_empty_raises_witness :
  main (fun x => x) stable_sort sample_rows [y2021] [] (1, 31) = Err ValueError
  /\ main (fun x => x) stable_sort sample_rows [] [1] (1, 31) = Err UnboundLocalError.
Proof.
  split.
  - destruct (main_empty_raises (fun x => x) stable_sort sample_rows [y2021] [] (1, 31))
      as [[e He] _]; [reflexivity|].
    rewrite He. vm_compute in He. exact (eq_sym He).
  - apply (main_empty_raises (fun x => x) stable_sort sample_rows [] [1] (1, 31));
      reflexivity.
Defined.

(** The overview figures of lines 65-68 are defined on an empty table: the
    sum is 0 and the mean is NaN, printed as "0.00" and "nan". *)
Example overview_empty :
  fmt2_comma (Num (sumQ (map Total []))) = "0.00"
  /\ mean (map Total []) = NaN
  /\ format_number (mean (map Total [])) = "nan".
Proof. repeat split. Qed.

Lemma main_inv_charts (fsqrt : Q -> Q) (sv : sort_values) (data : list row)
    (year_filter : list year) (month_filter : list Z) (day_filter : Z * Z)
    (rep : report) :
  main fsqrt sv data year_filter month_filter day_filter = Ok rep ->
  let fd := filter_data data year_filter month_filter day_filter in
  yearly_data rep = groupby_sum Year fd
  /\ monthly_data rep
     = groupby_sum (fun r => (Year r, (Month r, MonthName r))) fd
  /\ monthly_hover rep
     = "Month: %{x}<br>Total: %{y:,.2f} kWh<extra></extra>"
  /\ daily_data rep = groupby_mean hour_of fd
  /\ daily_hover rep
     = "Hour: %{x}<br>Average: %{y:,.2f} kWh<extra></extra>"
  /\ heatmap_data rep = pivot_mean fd.
Proof.
  intros Hm fd. unfold main in Hm. cbv zeta in Hm. fold fd in Hm.
  bind_inv Hm. injection Hm as <-.
  cbn [yearly_data monthly_data monthly_hover daily_data daily_hover
       heatmap_data].
  repeat split.
Qed.

(** C7, as the code has it.  Every magnitude [main] itself turns into text
    is the text [format_number] gives for its value, except the Total
    Energy figure of line 67, which is the two-decimal text of the sum with
    thousands separators and no K or M scaling.  The other values shown
    are not turned into text by [main]: the monthly totals and the hourly
    means of the two line charts are shown by the plotting layer under the
    hover templates of lines 96 and 119, whose format for the value is
    [,.2f], and the heat map and the table are handed over as numbers. *)
Theorem magnitudes_formatting (fsqrt : Q -> Q) (sv : sort_values)
    (data : list row) (year_filter : list year) (month_filter : list Z)
    (day_filter : Z * Z) (rep : report) :
  main fsqrt sv data year_filter month_filter day_filter = Ok rep ->
  let fd := filter_data data year_filter month_filter day_filter in
  (forall s, In s (magnitudes rep) ->
     (sh_metric s <> TotalEnergy -> sh_text s = format_number (sh_value s))
     /\ (sh_metric s = TotalEnergy ->
         sh_value s = Num (sumQ (map Total fd))
         /\ sh_text s = fmt2_comma (sh_value s)))
  /\ (exists s, In s (magnitudes rep) /\ sh_metric s = TotalEnergy)
  /\ (exists s, In s (magnitudes rep) /\ sh_metric s = AverageEnergy
                /\ sh_value s = mean (map Total fd))
  /\ monthly_data rep
     = groupby_sum (fun r => (Year r, (Month r, MonthName r))) fd
  /\ monthly_hover rep
     = "Month: %{x}<br>Total: %{y:,.2f} kWh<extra></extra>"
  /\ daily_data rep = groupby_mean hour_of fd
  /\ daily_hover rep
     = "Hour: %{x}<br>Average: %{y:,.2f} kWh<extra></extra>"
  /\ heatmap_data rep = pivot_mean fd
  /\ table rep = fd.
Proof.
  intros Hrep fd.
  destruct (main_inv _ _ _ _ _ _ _ Hrep) as (_ & _ & Ht & rest & Em & Hrest).
  destruct (main_inv_charts _ _ _ _ _ _ _ Hrep)
    as (_ & Hmd & Hmh & Hdd & Hdh & Hhm).
  split.
  { intros s Hs. rewrite Em in Hs. destruct Hs as [<- | Hs].
    - split; [intros Hne; now elim Hne | intros _; split; reflexivity].
    - destruct (Hrest s Hs) as [Hne Hx]. split; [auto | contradiction]. }
  split.
  { eexists. split; [rewrite Em; left; reflexivity | reflexivity]. }
  split.
  { unfold main in Hrep. cbv zeta in Hrep. fold fd in Hrep.
    bind_inv Hrep. injection Hrep as <-. cbn [magnitudes].
    eexists. split; [right; left; reflexivity | split; reflexivity]. }
  repeat (split; [assumption|]). exact Ht.
Qed.

Lemma magnitudes_formatting_witness :
  exists rep,
    main (fun x => x) stable_sort sample_rows [y2021] [1] (1, 31) = Ok rep
    /\ (forall s, In s (magnitudes rep) ->
          (sh_metric s <> TotalEnergy ->
           sh_text s = format_number (sh_value s))
          /\ (sh_metric s = TotalEnergy ->
              sh_value s
              = Num (sumQ (map Total (filter_data sample_rows [y2021] [1]
                                                   (1, 31))))
              /\ sh_text s = fmt2_comma (sh_value s)))
    /\ table rep = sample_rows.
Proof.
  destruct (main (fun x => x) stable_sort sample_rows [y2021] [1] (1, 31))
    as [rep|e] eqn:E.
  - exists rep. split; [reflexivity|].
    pose proof (magnitudes_formatting (fun x => x) stable_sort sample_rows
                  [y2021] [1] (1, 31) rep E) as H.
    cbv zeta in H. split; [exact (proj1 H)|].
    exact (proj2 (proj2 (proj2 (proj2 (proj2 (proj2 (proj2 (proj2 H)))))))).
  - vm_compute in E. discriminate E.
Defined.

(** C7 as stated fails: the Total Energy figure is not the text
    [format_number] gives for the sum. *)
Lemma magnitudes_formatting_counterexample :
  exists rep s,
    main (fun x => x) stable_sort sample_rows [y2021] [1] (1, 31) = Ok rep
    /\ In s (magnitudes rep)
    /\ sh_metric s = TotalEnergy
    /\ sh_text s = "17,010.00"
    /\ format_number (sh_value s) = "17.01K"
    /\ sh_text s <> format_number (sh_value s).
Proof.
  eexists. eexists. split; [vm_compute; reflexivity|].
  split; [left; reflexivity|].
  split; [reflexivity|].
  split; [vm_compute; reflexivity|].
  split; [vm_compute; reflexivity|].
  vm_compute. discriminate.
Qed.

(** ** The assembler *)

Module AssemblerFacts.
Import Assembler.

Lemma visit_file_steps (year : string) (files : list (string * read_result))
    (st : state) :
  fold_left (visit_file year) files st
  = mkState
      (data_frames st
       ++ map tagged
            (parsed_of (year_candidates year files)))
      (stdout st
       ++ map diagnostic
            (failed_of (year_candidates year files))).
Proof.
  revert st. induction files as [|[file res] files IH]; intros st.
  - simpl. rewrite !app_nil_r. now destruct st.
  - simpl fold_left. rewrite IH. unfold year_candidates. simpl.
    destruct (endswith file ".csv") eqn:E; simpl.
    + destruct res as [df | e]; simpl;
        rewrite <- ?app_assoc; reflexivity.
    + reflexivity.
Qed.

Lemma parsed_of_app (a b : list (string * string * read_result)) :
  parsed_of (a ++ b)
  = (parsed_of a ++ parsed_of b)%list.
Proof. apply flat_map_app. Qed.

Lemma failed_of_app (a b : list (string * string * read_result)) :
  failed_of (a ++ b)
  = (failed_of a ++ failed_of b)%list.
Proof. apply flat_map_app. Qed.

(** The loop visits every candidate once, in traversal order: tables of the
    valid ones are collected, one line is printed per invalid one. *)
Lemma visit_year_steps (root : tree) (st : state) :
  fold_left visit_year root st
  = mkState
      (data_frames st
       ++ map tagged (valid_files root))
      (stdout st
       ++ map diagnostic (invalid_files root)).
Proof.
  revert st. induction root as [|[year e] root IH]; intros st.
  - simpl. rewrite !app_nil_r. now destruct st.
  - simpl fold_left. rewrite IH.
    unfold valid_files, invalid_files.
    simpl candidates.
    rewrite parsed_of_app, failed_of_app, !map_app, !app_assoc.
    destruct e as [files|]; simpl visit_year.
    + rewrite visit_file_steps. reflexivity.
    + simpl. rewrite !app_nil_r. reflexivity.
Qed.

Lemma assemble_unfold (root : tree) :
  assemble root
  = match valid_files root with
    | [] =>
        mkOutcome
          (map diagnostic (invalid_files root)
           ++ [no_data_found]) None
    | _ :: _ =>
        mkOutcome
          (map diagnostic (invalid_files root)
           ++ ["Dataset created successfully!";
               "Combined dataset saved as 'combined_dataset.csv'"])
          (Some (pd_concat (map tagged (valid_files root))))
    end.
Proof.
  unfold assemble. rewrite visit_year_steps. simpl.
  destruct (valid_files root) as [|v vs]; reflexivity.
Qed.

Lemma get_set_same (name v : string) (r : frame_row) :
  get_column name (set_column name v r) = Some v.
Proof.
  induction r as [|[c old] r IH]; simpl.
  - now rewrite String.eqb_refl.
  - destruct (String.eqb c name) eqn:E; simpl; rewrite E; auto.
Qed.

Lemma get_set_other (name other v : string) (r : frame_row) :
  other <> name ->
  get_column name (set_column other v r) = get_column name r.
Proof.
  intros Hne. induction r as [|[c old] r IH]; simpl.
  - apply String.eqb_neq in Hne. now rewrite Hne.
  - destruct (String.eqb c other) eqn:E; simpl.
    + apply String.eqb_eq in E. subst c.
      apply String.eqb_neq in Hne. now rewrite Hne.
    + now rewrite IH.
Qed.

Lemma tag_row_columns (year file : string) (r : frame_row) :
  get_column "Year" (tag_row year file r) = Some year
  /\ get_column "Month" (tag_row year file r) = Some (substring 0 2 file).
Proof.
  unfold tag_row. split.
  - rewrite get_set_other by discriminate. apply get_set_same.
  - apply get_set_same.
Qed.

(** Every cell of a tagged row: the two tags, and the cells read. *)
Lemma tag_row_get (year file c : string) (r : frame_row) :
  get_column c (tag_row year file r)
  = if String.eqb c "Month" then Some (substring 0 2 file)
    else if String.eqb c "Year" then Some year
    else get_column c r.
Proof.
  unfold tag_row.
  destruct (String.eqb c "Month") eqn:Em.
  - apply String.eqb_eq in Em. subst c. apply get_set_same.
  - apply String.eqb_neq in Em.
    rewrite get_set_other by (intros E; now subst).
    destruct (String.eqb c "Year") eqn:Ey.
    + apply String.eqb_eq in Ey. subst c. apply get_set_same.
    + apply String.eqb_neq in Ey.
      apply get_set_other. intros E. now subst.
Qed.

Lemma tag_row_cell (year file c : string) (r : frame_row) :
  cell c (tag_row year file r)
  = if String.eqb c "Month" then substring 0 2 file
    else if String.eqb c "Year" then year
    else cell c r.
Proof.
  unfold cell. rewrite tag_row_get.
  destruct (String.eqb c "Month"); [reflexivity|].
  destruct (String.eqb c "Year"); reflexivity.
Qed.

(** A row laid out on a header holds its own cell in every column of the
    header. *)
Lemma reindex_get (cols : list string) (r : frame_row) (c : string) :
  In c cols -> get_column c (reindex cols r) = Some (cell c r).
Proof.
  induction cols as [|c0 cols IH]; simpl; [contradiction|].
  intros Hin. destruct (String.eqb c0 c) eqn:E.
  - apply String.eqb_eq in E. now subst.
  - apply IH. destruct Hin as [-> | Hin]; [|exact Hin].
    now rewrite String.eqb_refl in E.
Qed.

Lemma reindex_columns (cols : list string) (r : frame_row) :
  map fst (reindex cols r) = cols.
Proof. unfold reindex. rewrite map_map. simpl. apply map_id. Qed.

Lemma add_column_In (name c : string) (cols : list string) :
  In c (add_column name cols) <-> c = name \/ In c cols.
Proof.
  unfold add_column. destruct (existsb (String.eqb name) cols) eqn:E.
  - split; [now right|]. intros [-> | H]; [|exact H].
    apply existsb_exists in E. destruct E as (x & Hx & Ex).
    apply String.eqb_eq in Ex. now subst.
  - rewrite in_app_iff. simpl. split.
    + intros [H | [<- | []]]; auto.
    + intros [-> | H]; auto.
Qed.

Lemma tag_columns (year file c : string) (df : DataFrame) :
  In c (columns (tag year file df))
  <-> c = "Year" \/ c = "Month" \/ In c (columns df).
Proof.
  unfold tag, assign. cbn [columns]. rewrite !add_column_In. tauto.
Qed.

Lemma tag_rows (year file : string) (df : DataFrame) :
  frame_rows (tag year file df) = map (tag_row year file) (frame_rows df).
Proof.
  unfold tag, assign, tag_row. cbn [frame_rows]. now rewrite map_map.
Qed.

(** The header of a concatenation: the columns of the frames, each once. *)
Lemma pd_concat_columns (frames : list DataFrame) (c : string) :
  In c (columns (pd_concat frames))
  <-> exists df, In df frames /\ In c (columns df).
Proof.
  unfold pd_concat. cbn [columns]. rewrite unique_In, in_flat_map.
  reflexivity.
Qed.


(** The rows of the table written: those of the valid files, file after
    file and row after row, tagged and laid out on the header. *)
Lemma written_rows (valid : list (string * string * DataFrame)) :
  let table := pd_concat (map tagged valid) in
  frame_rows table
  = flat_map (fun v : string * string * DataFrame =>
                map (fun r => reindex (columns table)
                                (tag_row (fst (fst v)) (snd (fst v)) r))
                    (frame_rows (snd v))) valid.
Proof.
  intros table. unfold table, pd_concat. cbn [frame_rows columns].
  set (cols := unique (flat_map columns (map tagged valid))).
  clearbody cols.
  induction valid as [|[[y f] df] valid IH]; [reflexivity|].
  cbn [map flat_map fst snd]. rewrite IH.
  f_equal. unfold tagged. rewrite tag_rows. apply map_map.
Qed.

Lemma written_columns (valid : list (string * string * DataFrame))
    (c : string) :
  In c (columns (pd_concat (map tagged valid)))
  <-> valid <> []
      /\ (c = "Year" \/ c = "Month"
          \/ exists v, In v valid /\ In c (columns (snd v))).
Proof.
  rewrite pd_concat_columns. split.
  - intros (df & Hdf & Hc). apply in_map_iff in Hdf.
    destruct Hdf as ([[y f] d] & <- & Hv).
    split; [intros E; now rewrite E in Hv|].
    apply tag_columns in Hc.
    destruct Hc as [-> | [-> | Hc]]; auto.
    right. right. exists (y, f, d). auto.
  - intros [Hne Hc].
    destruct Hc as [-> | [-> | (v & Hv & Hc)]].
    + destruct valid as [|[[y f] d] valid]; [congruence|].
      exists (tag y f d). split; [now left|]. apply tag_columns. auto.
    + destruct valid as [|[[y f] d] valid]; [congruence|].
      exists (tag y f d). split; [now left|]. apply tag_columns. auto.
    + destruct v as [[y f] d]. exists (tag y f d).
      split; [apply in_map_iff; exists (y, f, d); auto|].
      apply tag_columns. auto.
Qed.

(** C8. When no file parses (all candidates fail, or there is none) the
    assembler prints its "no data found" line and writes nothing; when at
    least one file parses it writes the combined table. *)
Theorem assemble_no_data (root : tree) :
  (valid_files root = [] ->
     written (assemble root) = None
     /\ printed (assemble root)
        = (map diagnostic (invalid_files root) ++ [no_data_found])%list)
  /\ (valid_files root <> [] ->
     written (assemble root)
     = Some (pd_concat (map tagged (valid_files root)))
     /\ printed (assemble root)
        = (map diagnostic (invalid_files root)
           ++ ["Dataset created successfully!";
               "Combined dataset saved as 'combined_dataset.csv'"])%list).
Proof.
  rewrite assemble_unfold. split.
  - intros ->. split; reflexivity.
  - intros Hne. destruct (valid_files root) as [|v vs]; [congruence|].
    split; reflexivity.
Qed.

Lemma assemble_no_data_witness :
  (written (assemble all_invalid) = None
   /\ printed (assemble all_invalid)
      = ["Error reading file ../preprocessingdata/2021/01.csv: No columns to parse from file";
         "No data found in preprocessingdata folder."])
  /\ (written (assemble one_valid)
      = Some (mkFrame ["DateTime"; "Total"; "Year"; "Month"; "Note"]
                [[("DateTime", "2021-01-01 00:00:00"); ("Total", "1.5");
                  ("Year", "2021"); ("Month", "01"); ("Note", "")];
                 [("DateTime", "2021-01-01 00:15:00"); ("Total", "2.5");
                  ("Year", "2021"); ("Month", "01"); ("Note", "")];
                 [("DateTime", "2022-03-01 00:00:00"); ("Total", "3.5");
                  ("Year", "2022"); ("Month", "03"); ("Note", "estimated")]])
      /\ printed (assemble one_valid)
         = ["Error reading file ../preprocessingdata/2021/02.csv: No columns to parse from file";
            "Dataset created successfully!";
            "Combined dataset saved as 'combined_dataset.csv'"]).
Proof.
  split.
  - apply (proj1 (assemble_no_data all_invalid)). reflexivity.
  - apply (proj2 (assemble_no_data one_valid)). discriminate.
Defined.



End AssemblerFacts.

(** * Further properties of the code *)

(** ** [month_name] and [format_number] *)

(** [month_name] falls back to the empty string exactly on the numbers that
    are not a month of the year. *)
Theorem month_name_empty_iff (m : Z) :
  month_name m = "" <-> m < 1 \/ 12 < m.
Proof.
  split.
  - intros E.
    destruct (Z_lt_le_dec m 1) as [Hlo | Hlo]; [now left|].
    destruct (Z_lt_le_dec 12 m) as [Hhi | Hhi]; [now right|].
    exfalso.
    assert (C : m = 1 \/ m = 2 \/ m = 3 \/ m = 4 \/ m = 5 \/ m = 6 \/ m = 7
                \/ m = 8 \/ m = 9 \/ m = 10 \/ m = 11 \/ m = 12) by lia.
    repeat (destruct C as [-> | C]; [discriminate E|]).
    subst m. discriminate E.
  - intros Hm. destruct m as [|p|p]; try reflexivity.
    do 4 (try (destruct p as [p|p|]; try reflexivity; try lia)).
Qed.

(** Distinct months of the year have distinct names. *)
Theorem month_name_injective (a b : Z) :
  1 <= a <= 12 -> 1 <= b <= 12 -> month_name a = month_name b -> a = b.
Proof.
  intros Ha Hb.
  assert (Ca : a = 1 \/ a = 2 \/ a = 3 \/ a = 4 \/ a = 5 \/ a = 6 \/ a = 7
               \/ a = 8 \/ a = 9 \/ a = 10 \/ a = 11 \/ a = 12) by lia.
  assert (Cb : b = 1 \/ b = 2 \/ b = 3 \/ b = 4 \/ b = 5 \/ b = 6 \/ b = 7
               \/ b = 8 \/ b = 9 \/ b = 10 \/ b = 11 \/ b = 12) by lia.
  clear Ha Hb.
  repeat (destruct Ca as [-> | Ca]);
    repeat (destruct Cb as [-> | Cb]); subst;
    intros E; try reflexivity; discriminate E.
Qed.

Lemma month_name_injective_witness : 3 = 3.
Proof.
  apply (month_name_injective 3 3); [lia | lia | reflexivity].
Defined.

Lemma endswith_self_char (s : string) (c : ascii) :
  endswith (s ++ String c "") (String c "") = true.
Proof. rewrite endswith_last. apply Ascii.eqb_refl. Qed.

(** The suffix of the text tells the branch taken: [M] exactly from
    1,000,000 up, [K] exactly from 1,000 up to 1,000,000 excluded. *)
Theorem format_number_suffix (q : Q) :
  (endswith (format_number (Num q)) "M" = true <-> (1000000 <= q)%Q)
  /\ (endswith (format_number (Num q)) "K" = true
      <-> (1000 <= q)%Q /\ (q < 1000000)%Q).
Proof.
  destruct (Qlt_le_dec q 1000000) as [Hm | Hm].
  - destruct (Qlt_le_dec q 1000) as [Hk | Hk].
    + rewrite (format_number_plain q Hk).
      destruct (fmt2_no_suffix q) as [EK EM]. rewrite EK, EM. split; split.
      * discriminate.
      * intros H. exfalso. exact (Qlt_not_le _ _ Hm H).
      * discriminate.
      * intros [H _]. exfalso. exact (Qlt_not_le _ _ Hk H).
    + rewrite (format_number_thousands q Hk Hm). split.
      * rewrite endswith_last. split; [discriminate|].
        intros H. exfalso. exact (Qlt_not_le _ _ Hm H).
      * rewrite endswith_self_char. tauto.
  - rewrite (format_number_millions q Hm). split.
    + rewrite endswith_self_char. tauto.
    + rewrite endswith_last. split; [discriminate|].
      intros [_ H]. exfalso. exact (Qlt_not_le _ _ H Hm).
Qed.


(** A value whose hundredths round to 1000.00. *)
Lemma round_hundredths_carry (q : Q) :
  0 <= Qnum q ->
  199999 * Zpos (Qden q) <= 200 * Qnum q ->
  200 * Qnum q < 200001 * Zpos (Qden q) ->
  round_hundredths q = 100000.
Proof.
  intros Hpos Hlo Hhi. unfold round_hundredths.
  rewrite (Z.abs_eq _ Hpos).
  set (d := Zpos (Qden q)) in *. set (N := Qnum q * 100).
  assert (Hd : 0 < d) by (unfold d; lia).
  pose proof (Z.div_mod N d ltac:(lia)) as Hdiv.
  pose proof (Z.mod_pos_bound N d Hd) as Hr.
  destruct (Z_lt_le_dec (Qnum q) (1000 * d)) as [Hlt | Hge].
  - assert (Hf : N / d = 99999).
    { symmetry.
      apply (Z.div_unique N d 99999 (N - d * 99999)); unfold N; lia. }
    rewrite Hf in *.
    assert (Hr2 : d <= 2 * (N mod d)) by (unfold N in *; lia).
    destruct (2 * (N mod d) <? d) eqn:E1; [apply Z.ltb_lt in E1; lia|].
    destruct (d <? 2 * (N mod d)); reflexivity.
  - assert (Hf : N / d = 100000).
    { symmetry.
      apply (Z.div_unique N d 100000 (N - d * 100000)); unfold N; lia. }
    rewrite Hf in *.
    assert (Hr2 : 2 * (N mod d) < d) by (unfold N in *; lia).
    apply Z.ltb_lt in Hr2. now rewrite Hr2.
Qed.

Lemma tiny64_small : (0 <= tiny64)%Q /\ (tiny64 <= 1 # 1000000000)%Q.
Proof. split; unfold Qle; vm_compute; discriminate. Qed.

(** The float quotient by 1000 of a value from 999,999.995 up to 1,000,000
    lies within the numbers shown as 1000.00. *)
Lemma fdiv_near_thousand (q : Q) :
  (999999995 # 1000 <= q)%Q -> (q < 1000000)%Q ->
  (999995 # 1000 <= fdiv q 1000)%Q /\ (fdiv q 1000 < 1000005 # 1000)%Q.
Proof.
  intros Hlo Hhi. unfold fdiv.
  destruct (round64_error (q / 1000)) as [Herr _].
  destruct tiny64_small as [Ht0 Ht1].
  assert (Hx0 : (999999995 # 1000000 <= q / 1000)%Q).
  { apply Qle_shift_div_l; [reflexivity|].
    eapply Qle_trans; [|exact Hlo]. unfold Qle. simpl. lia. }
  assert (Hx1 : (q / 1000 < 1000)%Q).
  { apply Qlt_shift_div_r; [reflexivity|].
    eapply Qlt_le_trans; [exact Hhi|]. unfold Qle. simpl. lia. }
  set (x := (q / 1000)%Q) in *. set (y := round64 x) in *.
  rewrite (Qabs_pos x) in Herr
    by (eapply Qle_trans; [|exact Hx0]; unfold Qle; simpl; lia).
  apply Qabs_Qle_condition in Herr. destruct Herr as [He0 He1].
  unfold eps64 in He0, He1. clearbody x y. generalize dependent tiny64.
  intros t He0 He1 Ht0 Ht1. split; lra.
Qed.

(** The thresholds are tested before rounding: a value from 999.995 up to
    1,000 excluded is shown as "1000.00", not as "1.00K", and a value from
    999,999.995 up to 1,000,000 excluded as "1000.00K", not as "1.00M". *)
Theorem format_number_rounds_past_threshold (q : Q) :
  ((999995 # 1000 <= q)%Q -> (q < 1000)%Q ->
     format_number (Num q) = "1000.00")
  /\ ((999999995 # 1000 <= q)%Q -> (q < 1000000)%Q ->
     format_number (Num q) = "1000.00K").
Proof.
  split; intros Hlo Hhi.
  - rewrite format_number_plain by assumption.
    destruct q as [n d].
    unfold Qle, Qlt in Hlo, Hhi. simpl in Hlo, Hhi.
    unfold fmt2, sign_of.
    rewrite round_hundredths_carry; simpl Qnum; simpl Qden; try lia.
    replace (n <? 0) with false by (symmetry; apply Z.ltb_ge; lia).
    reflexivity.
  - rewrite format_number_thousands;
      [ | eapply Qle_trans; [|exact Hlo]; unfold Qle; simpl; lia
        | assumption ].
    destruct (fdiv_near_thousand q Hlo Hhi) as [Hy0 Hy1].
    destruct (fdiv q 1000) as [n d].
    unfold Qle, Qlt in Hy0, Hy1. simpl in Hy0, Hy1.
    unfold fmt2, sign_of.
    rewrite round_hundredths_carry; simpl Qnum; simpl Qden; try lia.
    replace (n <? 0) with false by (symmetry; apply Z.ltb_ge; lia).
    reflexivity.
Qed.

Lemma format_number_rounds_past_threshold_witness :
  format_number (Num (999996 # 1000)) = "1000.00"
  /\ format_number (Num (999999999 # 1000)) = "1000.00K".
Proof.
  split.
  - apply (proj1 (format_number_rounds_past_threshold (999996 # 1000)));
      [discriminate | reflexivity].
  - apply (proj2 (format_number_rounds_past_threshold (999999999 # 1000)));
      [discriminate | reflexivity].
Defined.

(** ** Filtering, continued *)

Lemma filter_all {A : Type} (p : A -> bool) (l : list A) :
  (forall x, In x l -> p x = true) -> filter p l = l.
Proof.
  induction l as [|x l IH]; intros Hp; simpl; [reflexivity|].
  rewrite (Hp x) by now left. f_equal. apply IH.
  intros y Hy. apply Hp. now right.
Qed.

Lemma filter_none {A : Type} (p : A -> bool) (l : list A) :
  (forall x, In x l -> p x = false) -> filter p l = [].
Proof.
  induction l as [|x l IH]; intros Hp; simpl; [reflexivity|].
  rewrite (Hp x) by now left. apply IH.
  intros y Hy. apply Hp. now right.
Qed.

(** With the widgets left as they start, the Filtered Dataset is the whole
    table (every timestamp has its day of the month between 1 and 31). *)
Theorem filter_data_default (data : list row) :
  (forall r, In r data -> 1 <= day_of r <= 31) ->
  filter_data data (default_year_filter data) (default_month_filter data)
              default_day_filter
  = data.
Proof.
  intros Hday. unfold filter_data. apply filter_all. intros r Hr.
  apply passes_spec. repeat split.
  - unfold default_year_filter. apply unique_In. now apply in_map.
  - unfold default_month_filter. apply unique_In. now apply in_map.
  - apply (Hday r Hr).
  - apply (Hday r Hr).
Qed.

Lemma filter_data_default_witness :
  filter_data sample_rows (default_year_filter sample_rows)
              (default_month_filter sample_rows) default_day_filter
  = sample_rows.
Proof.
  apply (filter_data_default sample_rows).
  intros r Hr. unfold sample_rows in Hr. simpl in Hr.
  repeat (destruct Hr as [<- | Hr]; [unfold day_of; simpl; lia|]).
  contradiction.
Defined.

(** A selection with no year, with no month, or with a day range whose
    upper end is below its lower end keeps no row. *)
Theorem filter_data_empty_selection (data : list row) (ys : list year)
    (ms : list Z) (d : Z * Z) :
  ys = [] \/ ms = [] \/ snd d < fst d ->
  filter_data data ys ms d = [].
Proof.
  intros Hsel. unfold filter_data. apply filter_none. intros r _.
  destruct d as [lo hi]. simpl in Hsel.
  destruct (passes ys ms (lo, hi) r) eqn:E; [|reflexivity].
  apply passes_spec in E. destruct E as (Hy & Hm & Hd).
  destruct Hsel as [-> | [-> | Hlt]]; [destruct Hy | destruct Hm | lia].
Qed.

Lemma filter_data_empty_selection_witness :
  filter_data sample_rows [y2021] [1] (20, 10) = [].
Proof.
  apply filter_data_empty_selection. right. right. simpl. lia.
Defined.

(** Filtering what a wider selection kept by a narrower one gives what the
    narrower one keeps of the table; in particular filtering twice by the
    same selection changes nothing. *)
Theorem filter_data_compose (data : list row) (ys1 ys2 : list year)
    (ms1 ms2 : list Z) (d1 d2 : Z * Z) :
  incl ys2 ys1 -> incl ms2 ms1 -> fst d1 <= fst d2 -> snd d2 <= snd d1 ->
  filter_data (filter_data data ys1 ms1 d1) ys2 ms2 d2
  = filter_data data ys2 ms2 d2.
Proof.
  intros Hy Hm Hlo Hhi. unfold filter_data.
  induction data as [|r data IH]; simpl; [reflexivity|].
  destruct d1 as [lo1 hi1], d2 as [lo2 hi2]. simpl in Hlo, Hhi.
  destruct (passes ys2 ms2 (lo2, hi2) r) eqn:E2.
  - assert (E1 : passes ys1 ms1 (lo1, hi1) r = true).
    { apply passes_spec in E2. apply passes_spec.
      destruct E2 as (H1 & H2 & H3).
      repeat split; [now apply Hy | now apply Hm | lia | lia]. }
    rewrite E1. simpl. rewrite E2. f_equal. exact IH.
  - destruct (passes ys1 ms1 (lo1, hi1) r); simpl; [rewrite E2|]; exact IH.
Qed.

Lemma filter_data_compose_witness :
  filter_data (filter_data sample_rows [y2021; y2022] [1; 2] (1, 31))
              [y2021] [1] (2, 4)
  = filter_data sample_rows [y2021] [1] (2, 4).
Proof.
  apply filter_data_compose; simpl; try lia.
  - intros y [<- | []]. now left.
  - intros m [<- | []]. now left.
Defined.


(** ** Extreme labels, continued *)

Section FirstExtreme.
Context {K : Type} `{KeyOk K}.

Lemma fold_first_largest (t : list (K * Q)) :
  forall (pre post : list (K * Q)) (best : K * Q),
    (forall c, In c pre -> (snd c < snd best)%Q) ->
    (forall c, In c post -> (snd c <= snd best)%Q) ->
    let b := fold_left
               (fun best c => if Qltb (snd best) (snd c) then c else best)
               t best in
    exists pre' post',
      (pre ++ best :: post ++ t = pre' ++ b :: post')%list
      /\ (forall c, In c pre' -> (snd c < snd b)%Q)
      /\ (forall c, In c post' -> (snd c <= snd b)%Q).
Proof.
  induction t as [|c t IH]; intros pre post best Hpre Hpost; simpl.
  - exists pre, post. rewrite app_nil_r. auto.
  - destruct (Qltb (snd best) (snd c)) eqn:E.
    + apply Qltb_lt in E.
      destruct (IH (pre ++ best :: post)%list [] c) as (p1 & p2 & Eq & H1 & H2).
      * intros x Hx. apply in_app_or in Hx. destruct Hx as [Hx | [<- | Hx]].
        -- eapply Qlt_trans; [apply Hpre, Hx | exact E].
        -- exact E.
        -- eapply Qle_lt_trans; [apply Hpost, Hx | exact E].
      * intros x [].
      * exists p1, p2. split; [|auto].
        rewrite <- Eq. rewrite <- !app_assoc. simpl. reflexivity.
    + apply Qltb_ge in E.
      destruct (IH pre (post ++ [c])%list best) as (p1 & p2 & Eq & H1 & H2).
      * exact Hpre.
      * intros x Hx. apply in_app_or in Hx. destruct Hx as [Hx | [<- | []]].
        -- apply Hpost, Hx.
        -- exact E.
      * exists p1, p2. split; [|auto].
        rewrite <- Eq. rewrite <- !app_assoc. simpl. reflexivity.
Qed.

Lemma fold_first_smallest (t : list (K * Q)) :
  forall (pre post : list (K * Q)) (best : K * Q),
    (forall c, In c pre -> (snd best < snd c)%Q) ->
    (forall c, In c post -> (snd best <= snd c)%Q) ->
    let b := fold_left
               (fun best c => if Qltb (snd c) (snd best) then c else best)
               t best in
    exists pre' post',
      (pre ++ best :: post ++ t = pre' ++ b :: post')%list
      /\ (forall c, In c pre' -> (snd b < snd c)%Q)
      /\ (forall c, In c post' -> (snd b <= snd c)%Q).
Proof.
  induction t as [|c t IH]; intros pre post best Hpre Hpost; simpl.
  - exists pre, post. rewrite app_nil_r. auto.
  - destruct (Qltb (snd c) (snd best)) eqn:E.
    + apply Qltb_lt in E.
      destruct (IH (pre ++ best :: post)%list [] c) as (p1 & p2 & Eq & H1 & H2).
      * intros x Hx. apply in_app_or in Hx. destruct Hx as [Hx | [<- | Hx]].
        -- eapply Qlt_trans; [exact E | apply Hpre, Hx].
        -- exact E.
        -- eapply Qlt_le_trans; [exact E | apply Hpost, Hx].
      * intros x [].
      * exists p1, p2. split; [|auto].
        rewrite <- Eq. rewrite <- !app_assoc. simpl. reflexivity.
    + apply Qltb_ge in E.
      destruct (IH pre (post ++ [c])%list best) as (p1 & p2 & Eq & H1 & H2).
      * exact Hpre.
      * intros x Hx. apply in_app_or in Hx. destruct Hx as [Hx | [<- | []]].
        -- apply Hpost, Hx.
        -- exact E.
      * exists p1, p2. split; [|auto].
        rewrite <- Eq. rewrite <- !app_assoc. simpl. reflexivity.
Qed.

Lemma loc_In (s : list (K * Q)) (k : K) (v : Q) :
  loc s k = Ok v -> In (k, v) s.
Proof.
  induction s as [|[k' v'] s IH]; simpl; [discriminate|].
  destruct (keqb k' k) eqn:E.
  - intros Ev. injection Ev as <-. apply keqb_eq in E. subst. now left.
  - intros Ev. right. now apply IH.
Qed.

Lemma keys_functional (s : list (K * Q)) (k : K) (v v' : Q) :
  NoDup (map fst s) -> In (k, v) s -> In (k, v') s -> v = v'.
Proof.
  induction s as [|[k0 v0] s IH]; simpl; [contradiction|].
  intros Hnd. inversion Hnd as [|? ? Hnotin Hnd']; subst.
  intros [E | Hin] [E' | Hin'].
  - congruence.
  - inversion E; subst. elim Hnotin.
    change k with (fst (k, v')). now apply in_map.
  - inversion E'; subst. elim Hnotin.
    change k with (fst (k, v)). now apply in_map.
  - now apply IH.
Qed.

(** [idxmax] followed by the lookup of its label: the first largest entry. *)
Lemma idxmax_loc (s : list (K * Q)) (k : K) (v : Q) :
  NoDup (map fst s) -> idxmax s = Ok k -> loc s k = Ok v ->
  first_largest s k v.
Proof.
  intros Hnd Ek Ev. destruct s as [|kv t]; [discriminate|].
  simpl in Ek. injection Ek as Ek.
  destruct (fold_first_largest t [] [] kv) as (pre & post & Eq & H1 & H2);
    try (intros x []).
  simpl in Eq.
  set (b := fold_left
              (fun best c => if Qltb (snd best) (snd c) then c else best)
              t kv) in *.
  assert (Hb : In (k, snd b) (kv :: t)).
  { rewrite Eq. apply in_or_app. right. left.
    rewrite <- Ek. now destruct b. }
  assert (Evb : v = snd b).
  { apply (keys_functional (kv :: t) k); auto. now apply loc_In. }
  exists pre, post. subst v. rewrite Eq. repeat split.
  - rewrite <- Ek. now destruct b.
  - intros k' v' Hin. exact (H1 (k', v') Hin).
  - intros k' v' Hin. exact (H2 (k', v') Hin).
Qed.

Lemma idxmin_loc (s : list (K * Q)) (k : K) (v : Q) :
  NoDup (map fst s) -> idxmin s = Ok k -> loc s k = Ok v ->
  first_smallest s k v.
Proof.
  intros Hnd Ek Ev. destruct s as [|kv t]; [discriminate|].
  simpl in Ek. injection Ek as Ek.
  destruct (fold_first_smallest t [] [] kv) as (pre & post & Eq & H1 & H2);
    try (intros x []).
  simpl in Eq.
  set (b := fold_left
              (fun best c => if Qltb (snd c) (snd best) then c else best)
              t kv) in *.
  assert (Hb : In (k, snd b) (kv :: t)).
  { rewrite Eq. apply in_or_app. right. left.
    rewrite <- Ek. now destruct b. }
  assert (Evb : v = snd b).
  { apply (keys_functional (kv :: t) k); auto. now apply loc_In. }
  exists pre, post. subst v. rewrite Eq. repeat split.
  - rewrite <- Ek. now destruct b.
  - intros k' v' Hin. exact (H1 (k', v') Hin).
  - intros k' v' Hin. exact (H2 (k', v') Hin).
Qed.

Lemma groupby_sum_NoDup (key : row -> K) (rows : list row) :
  NoDup (map fst (groupby_sum key rows)).
Proof. rewrite groupby_sum_keys. apply group_keys_NoDup. Qed.
End FirstExtreme.

(** ** The report, continued *)

(** Everything a returning run of [main] has looked up and displayed. *)
Lemma main_inv_groups (fsqrt : Q -> Q) (sv : sort_values) (data : list row)
    (year_filter : list year) (month_filter : list Z) (day_filter : Z * Z)
    (rep : report) :
  main fsqrt sv data year_filter month_filter day_filter = Ok rep ->
  let fd := filter_data data year_filter month_filter day_filter in
  let total := Num (sumQ (map Total fd)) in
  let weekday_usage := sort_desc sv (groupby_sum weekday_of fd) in
  exists vy1 vy2 km1 km2 vm1 vm2 vh1 vh2,
    idxmax (groupby_sum Year fd) = Ok (max_year rep)
    /\ idxmin (groupby_sum Year fd) = Ok (min_year rep)
    /\ loc (groupby_sum Year fd) (max_year rep) = Ok vy1
    /\ loc (groupby_sum Year fd) (min_year rep) = Ok vy2
    /\ idxmax (groupby_sum Month fd) = Ok km1
    /\ idxmin (groupby_sum Month fd) = Ok km2
    /\ max_month_name rep = month_name km1
    /\ min_month_name rep = month_name km2
    /\ loc (groupby_sum Month fd) km1 = Ok vm1
    /\ loc (groupby_sum Month fd) km2 = Ok vm2
    /\ idxmax (groupby_sum hour_of fd) = Ok (max_hour rep)
    /\ idxmin (groupby_sum hour_of fd) = Ok (min_hour rep)
    /\ loc (groupby_sum hour_of fd) (max_hour rep) = Ok vh1
    /\ loc (groupby_sum hour_of fd) (min_hour rep) = Ok vh2
    /\ idxmax weekday_usage = Ok (max_weekday rep)
    /\ idxmin weekday_usage = Ok (min_weekday rep)
    /\ yearly_data rep = groupby_sum Year fd
    /\ monthly_data rep
       = groupby_sum (fun r => (Year r, (Month r, MonthName r))) fd
    /\ daily_data rep = groupby_mean hour_of fd
    /\ heatmap_data rep = pivot_mean fd
    /\ magnitudes rep
       = ([ mkShown TotalEnergy total (fmt2_comma total);
            shown_by_rule AverageEnergy (mean (map Total fd)) ]
          ++ map (fun yv => shown_by_rule (YearBar (fst yv)) (Num (snd yv)))
                 (groupby_sum Year fd)
          ++ [ shown_by_rule HighestYear (Num vy1);
               shown_by_rule LowestYear (Num vy2);
               shown_by_rule HighestMonth (Num vm1);
               shown_by_rule LowestMonth (Num vm2);
               shown_by_rule HighestHour (Num vh1);
               shown_by_rule LowestHour (Num vh2);
               shown_by_rule HighestTotal (maxQ (map Total fd)) ]
          ++ flat_map (rate_stats fsqrt fd) [RateA; RateB; RateC]
          ++ [ shown_by_rule HighestWeekday (maxQ (map snd weekday_usage));
               shown_by_rule LowestWeekday (minQ (map snd weekday_usage)) ]
         )%list.
Proof.
  intros Hm fd total weekday_usage. unfold main in Hm. cbv zeta in Hm.
  fold fd in Hm. fold total in Hm. fold weekday_usage in Hm.
  bind_inv Hm. injection Hm as <-.
  cbn [max_year min_year max_month_name min_month_name max_hour min_hour
       max_weekday min_weekday yearly_data monthly_data daily_data
       heatmap_data magnitudes].
  do 8 eexists.
  repeat (split; [eassumption || reflexivity|]).
  reflexivity.
Qed.

Lemma idxmax_In {K : Type} `{KeyOk K} (s : list (K * Q)) (k : K) :
  idxmax s = Ok k -> In k (map fst s).
Proof.
  intros Ek. destruct (idxmax_ok s) as (k' & Ek' & Hin).
  - intros ->. discriminate Ek.
  - congruence.
Qed.

Lemma idxmin_In {K : Type} `{KeyOk K} (s : list (K * Q)) (k : K) :
  idxmin s = Ok k -> In k (map fst s).
Proof.
  intros Ek. destruct (idxmin_ok s) as (k' & Ek' & Hin).
  - intros ->. discriminate Ek.
  - congruence.
Qed.

(** A label of a grouped series is the key of a row of the table. *)
Lemma groupby_sum_label {K : Type} `{KeyOk K} (key : row -> K)
    (rows : list row) (k : K) :
  In k (map fst (groupby_sum key rows)) ->
  exists r, In r rows /\ key r = k.
Proof. rewrite groupby_sum_keys. apply group_keys_In. Qed.

Ltac in_magnitudes E :=
  rewrite E; cbn [app In]; do 2 right;
  apply in_or_app; right; cbn [app In]; tauto.

(** The years, months and hours [main] reports as highest and lowest are
    the first largest and first smallest entries of the per-year, per-month
    and per-hour sums of the Filtered Dataset, and the totals printed next
    to them are the totals of those entries. *)
Theorem main_extremes (fsqrt : Q -> Q) (sv : sort_values) (data : list row)
    (year_filter : list year) (month_filter : list Z) (day_filter : Z * Z)
    (rep : report) :
  main fsqrt sv data year_filter month_filter day_filter = Ok rep ->
  let fd := filter_data data year_filter month_filter day_filter in
  exists vy1 vy2 km1 km2 vm1 vm2 vh1 vh2,
    first_largest (groupby_sum Year fd) (max_year rep) vy1
    /\ first_smallest (groupby_sum Year fd) (min_year rep) vy2
    /\ In (shown_by_rule HighestYear (Num vy1)) (magnitudes rep)
    /\ In (shown_by_rule LowestYear (Num vy2)) (magnitudes rep)
    /\ first_largest (groupby_sum Month fd) km1 vm1
    /\ first_smallest (groupby_sum Month fd) km2 vm2
    /\ max_month_name rep = month_name km1
    /\ min_month_name rep = month_name km2
    /\ In (shown_by_rule HighestMonth (Num vm1)) (magnitudes rep)
    /\ In (shown_by_rule LowestMonth (Num vm2)) (magnitudes rep)
    /\ first_largest (groupby_sum hour_of fd) (max_hour rep) vh1
    /\ first_smallest (groupby_sum hour_of fd) (min_hour rep) vh2
    /\ In (shown_by_rule HighestHour (Num vh1)) (magnitudes rep)
    /\ In (shown_by_rule LowestHour (Num vh2)) (magnitudes rep).
Proof.
  intros Hm fd.
  destruct (main_inv_groups _ _ _ _ _ _ _ Hm)
    as (vy1 & vy2 & km1 & km2 & vm1 & vm2 & vh1 & vh2
        & Ey1 & Ey2 & Ly1 & Ly2 & Em1 & Em2 & En1 & En2 & Lm1 & Lm2
        & Eh1 & Eh2 & Lh1 & Lh2 & _ & _ & _ & _ & _ & _ & Emag).
  fold fd in Ey1, Ey2, Ly1, Ly2, Em1, Em2, Lm1, Lm2, Eh1, Eh2, Lh1, Lh2, Emag.
  exists vy1, vy2, km1, km2, vm1, vm2, vh1, vh2.
  repeat split;
    first [ apply idxmax_loc; [apply groupby_sum_NoDup | assumption..]
          | apply idxmin_loc; [apply groupby_sum_NoDup | assumption..]
          | assumption
          | in_magnitudes Emag ].
Qed.

Lemma main_extremes_witness :
  exists rep,
    main (fun x => x) stable_sort sample_rows [y2021] [1] (1, 31) = Ok rep
    /\ exists vy1 vy2 km1 km2 vm1 vm2 vh1 vh2,
         let fd := filter_data sample_rows [y2021] [1] (1, 31) in
         first_largest (groupby_sum Year fd) (max_year rep) vy1
         /\ first_smallest (groupby_sum Year fd) (min_year rep) vy2
         /\ In (shown_by_rule HighestYear (Num vy1)) (magnitudes rep)
         /\ In (shown_by_rule LowestYear (Num vy2)) (magnitudes rep)
         /\ first_largest (groupby_sum Month fd) km1 vm1
         /\ first_smallest (groupby_sum Month fd) km2 vm2
         /\ max_month_name rep = month_name km1
         /\ min_month_name rep = month_name km2
         /\ In (shown_by_rule HighestMonth (Num vm1)) (magnitudes rep)
         /\ In (shown_by_rule LowestMonth (Num vm2)) (magnitudes rep)
         /\ first_largest (groupby_sum hour_of fd) (max_hour rep) vh1
         /\ first_smallest (groupby_sum hour_of fd) (min_hour rep) vh2
         /\ In (shown_by_rule HighestHour (Num vh1)) (magnitudes rep)
         /\ In (shown_by_rule LowestHour (Num vh2)) (magnitudes rep).
Proof.
  destruct (main (fun x => x) stable_sort sample_rows [y2021] [1] (1, 31)) as [rep|e] eqn:E.
  - exists rep. split; [reflexivity|].
    exact (main_extremes (fun x => x) stable_sort sample_rows [y2021] [1]
             (1, 31) rep E).
  - vm_compute in E. discriminate E.
Defined.

(** Whatever [main] reports comes from the rows that passed the filter:
    the years are selected years, the months are selected months, and the
    hours, weekdays and the timestamp are those of rows of the Filtered
    Dataset. *)
Theorem main_labels_selected (fsqrt : Q -> Q) (sv : sort_values) (data : list row)
    (year_filter : list year) (month_filter : list Z) (day_filter : Z * Z)
    (rep : report) :
  main fsqrt sv data year_filter month_filter day_filter = Ok rep ->
  let fd := filter_data data year_filter month_filter day_filter in
  In (max_year rep) year_filter
  /\ In (min_year rep) year_filter
  /\ (exists m, In m month_filter /\ max_month_name rep = month_name m)
  /\ (exists m, In m month_filter /\ min_month_name rep = month_name m)
  /\ (exists r, In r fd /\ hour_of r = max_hour rep)
  /\ (exists r, In r fd /\ hour_of r = min_hour rep)
  /\ (exists r, In r fd /\ weekday_of r = max_weekday rep)
  /\ (exists r, In r fd /\ weekday_of r = min_weekday rep)
  /\ (exists r, In r fd /\ DateTime r = max_datetime rep)
  /\ (exists r, In r fd /\ hour_of r = peak_hour_freq rep).
Proof.
  intros Hm fd.
  destruct (main_inv_groups _ _ _ _ _ _ _ Hm)
    as (vy1 & vy2 & km1 & km2 & vm1 & vm2 & vh1 & vh2
        & Ey1 & Ey2 & _ & _ & Em1 & Em2 & En1 & En2 & _ & _
        & Eh1 & Eh2 & _ & _ & Ew1 & Ew2 & _).
  destruct (main_inv _ _ _ _ _ _ _ Hm) as (Hdt & Hpk & _).
  fold fd in Ey1, Ey2, Em1, Em2, Eh1, Eh2, Ew1, Ew2, Hdt, Hpk.
  assert (Hsel : forall r, In r fd ->
            In (Year r) year_filter /\ In (Month r) month_filter).
  { intros r Hr. unfold fd, filter_data in Hr. apply filter_In in Hr.
    destruct Hr as [_ Hp]. destruct day_filter as [lo hi].
    apply passes_spec in Hp. tauto. }
  assert (Hweek : forall k,
            In k (map fst (sort_desc sv (groupby_sum weekday_of fd))) ->
            exists r, In r fd /\ weekday_of r = k).
  { intros k Hk. apply in_map_iff in Hk. destruct Hk as ([k' v] & <- & Hin).
    apply (Permutation_in _ (sort_desc_perm sv _)) in Hin.
    apply groupby_sum_label.
    change k' with (fst (k', v)). now apply in_map. }
  repeat split.
  - apply idxmax_In, groupby_sum_label in Ey1.
    destruct Ey1 as (r & Hr & <-). now apply Hsel.
  - apply idxmin_In, groupby_sum_label in Ey2.
    destruct Ey2 as (r & Hr & <-). now apply Hsel.
  - apply idxmax_In, groupby_sum_label in Em1.
    destruct Em1 as (r & Hr & E). exists km1. split; [|assumption].
    rewrite <- E. now apply Hsel.
  - apply idxmin_In, groupby_sum_label in Em2.
    destruct Em2 as (r & Hr & E). exists km2. split; [|assumption].
    rewrite <- E. now apply Hsel.
  - apply idxmax_In, groupby_sum_label in Eh1. exact Eh1.
  - apply idxmin_In, groupby_sum_label in Eh2. exact Eh2.
  - apply Hweek. now apply idxmax_In.
  - apply Hweek. now apply idxmin_In.
  - destruct (max_total_rows fd) as [|r0 rest] eqn:Et; [discriminate Hdt|].
    simpl in Hdt. injection Hdt as Hdt. exists r0. split; [|assumption].
    assert (Hin : In r0 (max_total_rows fd)) by (rewrite Et; now left).
    unfold max_total_rows in Hin. now apply filter_In in Hin.
  - destruct (mode (map hour_of (max_total_rows fd))) as [|h t] eqn:Emode;
      [discriminate Hpk|].
    simpl in Hpk. injection Hpk as <-.
    assert (Hin : In h (mode (map hour_of (max_total_rows fd))))
      by (rewrite Emode; now left).
    unfold mode in Hin. apply sort_by_In, filter_In in Hin.
    destruct Hin as [Hin _]. apply unique_In, in_map_iff in Hin.
    destruct Hin as (r & Er & Hr). exists r. split; [|assumption].
    unfold max_total_rows in Hr. now apply filter_In in Hr.
Qed.

Lemma main_labels_selected_witness :
  exists rep,
    main (fun x => x) stable_sort sample_rows [y2021] [1] (1, 31) = Ok rep
    /\ In (max_year rep) [y2021]
    /\ In (min_year rep) [y2021].
Proof.
  destruct (main (fun x => x) stable_sort sample_rows [y2021] [1] (1, 31)) as [rep|e] eqn:E.
  - exists rep. split; [reflexivity|].
    pose proof (main_labels_selected (fun x => x) stable_sort sample_rows [y2021] [1]
                  (1, 31) rep E) as Hl.
    split; [exact (proj1 Hl) | exact (proj1 (proj2 Hl))].
  - vm_compute in E. discriminate E.
Defined.



Lemma Qmin_cases (a b : Q) :
  (Qmin a b = a /\ (a <= b)%Q) \/ (Qmin a b = b /\ (b < a)%Q).
Proof.
  unfold Qmin. destruct (Qltb b a) eqn:E.
  - right. split; [reflexivity | now apply Qltb_lt].
  - left. split; [reflexivity | now apply Qltb_ge].
Qed.

(** The running minimum is one of the numbers seen, and none is below it. *)
Lemma fold_Qmin_spec (t : list Q) (x : Q) :
  In (fold_left Qmin t x) (x :: t)
  /\ forall y, In y (x :: t) -> (fold_left Qmin t x <= y)%Q.
Proof.
  revert x. induction t as [|z t IH]; intros x; simpl.
  - split; [now left|]. intros y [<- | []]. apply Qle_refl.
  - destruct (IH (Qmin x z)) as [Hin Hle]. split.
    + destruct Hin as [E | Hin]; [|now right; right].
      rewrite <- E.
      destruct (Qmin_cases x z) as [[Em _] | [Em _]]; rewrite Em; auto.
    + intros y Hy.
      assert (Hx : (Qmin x z <= x)%Q /\ (Qmin x z <= z)%Q).
      { destruct (Qmin_cases x z) as [[-> Hxz] | [-> Hzx]]; split;
          auto using Qle_refl, Qlt_le_weak. }
      destruct Hx as [Hx Hz].
      assert (Hm : (fold_left Qmin t (Qmin x z) <= Qmin x z)%Q)
        by (apply Hle; now left).
      destruct Hy as [<- | [<- | Hy]].
      * eapply Qle_trans; eauto.
      * eapply Qle_trans; eauto.
      * apply Hle. now right.
Qed.

Lemma minQ_spec (l : list Q) :
  l <> [] ->
  exists m, minQ l = Num m /\ In m l /\ forall y, In y l -> (m <= y)%Q.
Proof.
  destruct l as [|x t]; [congruence|]. intros _.
  exists (fold_left Qmin t x). split; [reflexivity|]. apply fold_Qmin_spec.
Qed.

(** ** Column statistics *)



(** The mean is rounded: of three readings of 0.045 it is
    0.045000000000000005, above each of them, and is shown as 0.05 where
    the largest is shown as 0.04. *)
Example mean_above_max :
  let col := repeat (reading (45 # 1000)) 3 in
  maxQ col = Num (reading (45 # 1000))
  /\ mean col = Num (6485183463413515 # 144115188075855872)
  /\ (reading (45 # 1000) < 6485183463413515 # 144115188075855872)%Q
  /\ format_number (maxQ col) = "0.04"
  /\ format_number (mean col) = "0.05".
Proof. cbv zeta. repeat split; vm_compute; reflexivity. Qed.








(** ** Chart inputs *)




Lemma mean_nan_iff (l : list Q) : mean l = NaN <-> l = [].
Proof. destruct l; simpl; split; intros; congruence. Qed.




(** The bar chart (lines 72-78) has one bar per year that has rows in the
    Filtered Dataset, each labelled with its sum through [format_number]. *)
Theorem yearly_bars_spec (fsqrt : Q -> Q) (sv : sort_values) (data : list row)
    (year_filter : list year) (month_filter : list Z) (day_filter : Z * Z)
    (rep : report) :
  main fsqrt sv data year_filter month_filter day_filter = Ok rep ->
  let fd := filter_data data year_filter month_filter day_filter in
  NoDup (map fst (yearly_data rep))
  /\ (forall y, In y (map fst (yearly_data rep))
                <-> exists r, In r fd /\ Year r = y)
  /\ (forall y t, In (y, t) (yearly_data rep) ->
        t = group_sum (map Total (filter (fun r => year_eqb (Year r) y) fd))
        /\ In (shown_by_rule (YearBar y) (Num t)) (magnitudes rep))
  /\ incl (map fst (yearly_data rep)) year_filter.
Proof.
  intros Hm fd.
  destruct (main_inv_groups _ _ _ _ _ _ _ Hm)
    as (vy1 & vy2 & km1 & km2 & vm1 & vm2 & vh1 & vh2 & Hrest).
  do 16 (destruct Hrest as [_ Hrest]).
  destruct Hrest as (Ey & _ & _ & _ & Emag). fold fd in Ey, Emag.
  rewrite Ey. rewrite groupby_sum_keys.
  split; [apply group_keys_NoDup|].
  split; [apply group_keys_In|]. split.
  - intros y t Hin. split.
    + unfold groupby_sum in Hin. apply in_map_iff in Hin.
      destruct Hin as (k & E & _). now injection E as -> <-.
    + rewrite Emag. cbn [app In]. do 2 right. apply in_or_app. left.
      apply in_map_iff. exists (y, t). split; [reflexivity | assumption].
  - intros y Hy. apply group_keys_In in Hy. destruct Hy as (r & Hr & <-).
    unfold fd, filter_data in Hr. apply filter_In in Hr.
    destruct Hr as [_ Hp]. destruct day_filter as [lo hi].
    apply passes_spec in Hp. tauto.
Qed.

Lemma yearly_bars_spec_witness :
  exists rep,
    main (fun x => x) stable_sort sample_rows [y2021] [1] (1, 31) = Ok rep
    /\ NoDup (map fst (yearly_data rep))
    /\ incl (map fst (yearly_data rep)) [y2021].
Proof.
  destruct (main (fun x => x) stable_sort sample_rows [y2021] [1] (1, 31)) as [rep|e] eqn:E.
  - exists rep. split; [reflexivity|].
    destruct (yearly_bars_spec (fun x => x) stable_sort sample_rows [y2021] [1] (1, 31)
                rep E) as (H1 & _ & _ & H2).
    split; assumption.
  - vm_compute in E. discriminate E.
Defined.

(** ** Weekdays (lines 224-227) *)

Lemma first_largest_bound {K : Type} (s : list (K * Q)) (k : K) (v : Q) :
  first_largest s k v ->
  In (k, v) s /\ forall k' v', In (k', v') s -> (v' <= v)%Q.
Proof.
  intros (pre & post & -> & Hpre & Hpost). split.
  - apply in_or_app. right. now left.
  - intros k' v' Hin. apply in_app_or in Hin.
    destruct Hin as [Hin | [E | Hin]].
    + apply Qlt_le_weak. eapply Hpre, Hin.
    + injection E as _ <-. apply Qle_refl.
    + eapply Hpost, Hin.
Qed.

Lemma first_smallest_bound {K : Type} (s : list (K * Q)) (k : K) (v : Q) :
  first_smallest s k v ->
  In (k, v) s /\ forall k' v', In (k', v') s -> (v <= v')%Q.
Proof.
  intros (pre & post & -> & Hpre & Hpost). split.
  - apply in_or_app. right. now left.
  - intros k' v' Hin. apply in_app_or in Hin.
    destruct Hin as [Hin | [E | Hin]].
    + apply Qlt_le_weak. eapply Hpre, Hin.
    + injection E as _ <-. apply Qle_refl.
    + eapply Hpost, Hin.
Qed.

Lemma idxmax_first {K : Type} (s : list (K * Q)) (k : K) :
  idxmax s = Ok k -> exists v, first_largest s k v.
Proof.
  destruct s as [|kv t]; [discriminate|]. simpl. intros Ek.
  injection Ek as Ek.
  destruct (fold_first_largest t [] [] kv) as (pre & post & Eq & H1 & H2);
    try (intros x []).
  simpl in Eq.
  set (b := fold_left
              (fun best c => if Qltb (snd best) (snd c) then c else best)
              t kv) in *.
  exists (snd b), pre, post. rewrite Eq, <- Ek. repeat split.
  - now destruct b.
  - intros k' v' Hin. exact (H1 (k', v') Hin).
  - intros k' v' Hin. exact (H2 (k', v') Hin).
Qed.

Lemma idxmin_first {K : Type} (s : list (K * Q)) (k : K) :
  idxmin s = Ok k -> exists v, first_smallest s k v.
Proof.
  destruct s as [|kv t]; [discriminate|]. simpl. intros Ek.
  injection Ek as Ek.
  destruct (fold_first_smallest t [] [] kv) as (pre & post & Eq & H1 & H2);
    try (intros x []).
  simpl in Eq.
  set (b := fold_left
              (fun best c => if Qltb (snd c) (snd best) then c else best)
              t kv) in *.
  exists (snd b), pre, post. rewrite Eq, <- Ek. repeat split.
  - now destruct b.
  - intros k' v' Hin. exact (H1 (k', v') Hin).
  - intros k' v' Hin. exact (H2 (k', v') Hin).
Qed.

(** The weekday [main] reports as highest (lowest) has the largest
    (smallest) of the per-weekday sums of the Filtered Dataset, and the
    total printed next to it equals that sum. *)
Theorem main_weekday_extremes (fsqrt : Q -> Q) (sv : sort_values) (data : list row)
    (year_filter : list year) (month_filter : list Z) (day_filter : Z * Z)
    (rep : report) :
  main fsqrt sv data year_filter month_filter day_filter = Ok rep ->
  let fd := filter_data data year_filter month_filter day_filter in
  exists hi lo w1 w2,
    In (shown_by_rule HighestWeekday (Num hi)) (magnitudes rep)
    /\ In (shown_by_rule LowestWeekday (Num lo)) (magnitudes rep)
    /\ In (max_weekday rep, w1) (groupby_sum weekday_of fd) /\ w1 == hi
    /\ In (min_weekday rep, w2) (groupby_sum weekday_of fd) /\ w2 == lo
    /\ forall k v, In (k, v) (groupby_sum weekday_of fd) ->
         (lo <= v)%Q /\ (v <= hi)%Q.
Proof.
  intros Hm fd.
  destruct (main_inv_groups _ _ _ _ _ _ _ Hm)
    as (vy1 & vy2 & km1 & km2 & vm1 & vm2 & vh1 & vh2 & Hrest).
  do 14 (destruct Hrest as [_ Hrest]).
  destruct Hrest as (Ew1 & Ew2 & _ & _ & _ & _ & Emag).
  fold fd in Ew1, Ew2, Emag.
  set (wu := sort_desc sv (groupby_sum weekday_of fd)) in *.
  destruct (idxmax_first wu _ Ew1) as (w1 & Hf1).
  destruct (idxmin_first wu _ Ew2) as (w2 & Hf2).
  apply first_largest_bound in Hf1. destruct Hf1 as [Hin1 Hb1].
  apply first_smallest_bound in Hf2. destruct Hf2 as [Hin2 Hb2].
  assert (Hne : map snd wu <> []).
  { destruct wu; [contradiction | discriminate]. }
  destruct (maxQ_spec _ Hne) as (hi & Ehi & Hhi & Hmax).
  destruct (minQ_spec _ Hne) as (lo & Elo & Hlo & Hmin).
  rewrite Ehi, Elo in Emag.
  assert (Hwu : forall k v, In (k, v) wu
                            <-> In (k, v) (groupby_sum weekday_of fd)).
  { intros k v. split; apply Permutation_in;
      [apply sort_desc_perm | apply Permutation_sym, sort_desc_perm]. }
  exists hi, lo, w1, w2. repeat split.
  - rewrite Emag. do 4 (apply in_or_app; right). simpl. tauto.
  - rewrite Emag. do 4 (apply in_or_app; right). simpl. tauto.
  - now apply Hwu.
  - apply Qle_antisym.
    + apply Hmax. change w1 with (snd (max_weekday rep, w1)). now apply in_map.
    + apply in_map_iff in Hhi. destruct Hhi as ([k v] & <- & Hin).
      exact (Hb1 k v Hin).
  - now apply Hwu.
  - apply Qle_antisym.
    + apply in_map_iff in Hlo. destruct Hlo as ([k v] & <- & Hin).
      exact (Hb2 k v Hin).
    + apply Hmin. change w2 with (snd (min_weekday rep, w2)). now apply in_map.
  - apply Hmin. change v with (snd (k, v)). apply in_map. now apply Hwu.
  - apply Hmax. change v with (snd (k, v)). apply in_map. now apply Hwu.
Qed.

Lemma main_weekday_extremes_witness :
  exists rep hi lo,
    main (fun x => x) stable_sort sample_rows [y2021] [1] (1, 31) = Ok rep
    /\ In (shown_by_rule HighestWeekday (Num hi)) (magnitudes rep)
    /\ In (shown_by_rule LowestWeekday (Num lo)) (magnitudes rep)
    /\ forall k v,
         In (k, v) (groupby_sum weekday_of
                      (filter_data sample_rows [y2021] [1] (1, 31))) ->
         (lo <= v)%Q /\ (v <= hi)%Q.
Proof.
  destruct (main (fun x => x) stable_sort sample_rows [y2021] [1] (1, 31)) as [rep|e] eqn:E.
  - destruct (main_weekday_extremes (fun x => x) stable_sort sample_rows [y2021] [1]
                (1, 31) rep E)
      as (hi & lo & w1 & w2 & H1 & H2 & _ & _ & _ & _ & H3).
    exists rep, hi, lo. repeat split; try assumption; apply (H3 k v H).
  - vm_compute in E. discriminate E.
Defined.

(** ** Overview metrics (lines 65-68) *)




(** ** The assembler, continued *)

Module AssemblerMore.
Import Assembler AssemblerFacts.

Lemma filter_idem {A : Type} (p : A -> bool) (l : list A) :
  filter p (filter p l) = filter p l.
Proof.
  induction l as [|x l IH]; simpl; [reflexivity|].
  destruct (p x) eqn:E; simpl; [rewrite E; f_equal|]; exact IH.
Qed.

Lemma candidates_relevant (root : tree) :
  candidates (relevant root) = candidates root.
Proof.
  induction root as [|[y e] root IH]; simpl; [reflexivity|].
  destruct e as [files|]; simpl.
  - unfold year_candidates. simpl. rewrite filter_idem.
    now rewrite IH.
  - exact IH.
Qed.

(** Entries of the root that are not folders, and files whose name does not
    end in ".csv", have no influence: the run prints and writes the same
    with or without them. *)
Theorem assemble_ignores_others (root : tree) :
  assemble (relevant root) = assemble root.
Proof.
  rewrite !assemble_unfold. unfold valid_files, invalid_files.
  now rewrite candidates_relevant.
Qed.






(** Tagging leaves every column other than Year and Month as it was read. *)
Theorem tag_row_passthrough (year file column : string) (r : frame_row) :
  column <> "Year" -> column <> "Month" ->
  get_column column (tag_row year file r) = get_column column r.
Proof.
  intros Hy Hm. unfold tag_row.
  rewrite get_set_other by congruence.
  apply get_set_other. congruence.
Qed.

Lemma tag_row_passthrough_witness :
  get_column "Total" (tag_row "2021" "01.csv" [("Total", "7"); ("Year", "x")])
  = get_column "Total" [("Total", "7"); ("Year", "x")].
Proof.
  apply tag_row_passthrough; discriminate.
Defined.

Lemma substring_two (s : string) :
  (2 <= String.length s)%nat -> String.length (substring 0 2 s) = 2%nat.
Proof.
  destruct s as [|a [|b s]]; simpl; try lia. intros _.
  destruct s; reflexivity.
Qed.

Lemma endswith_length (s suffix : string) :
  endswith s suffix = true -> (String.length suffix <= String.length s)%nat.
Proof.
  unfold endswith. intros E. apply andb_true_iff in E.
  destruct E as [E _]. now apply Nat.leb_le.
Qed.

Lemma candidates_In (root : tree) (y f : string) (res : read_result) :
  In (y, f, res) (candidates root) ->
  In y (map fst root) /\ endswith f ".csv" = true.
Proof.
  induction root as [|[y0 e] root IH]; simpl; [contradiction|].
  intros Hin. apply in_app_or in Hin. destruct Hin as [Hin | Hin].
  - destruct e as [files|]; [|contradiction].
    unfold year_candidates in Hin. apply in_map_iff in Hin.
    destruct Hin as ([f0 r0] & E & Hf). simpl in E. injection E as <- <- <-.
    apply filter_In in Hf. simpl in Hf. tauto.
  - destruct (IH Hin) as [H1 H2]. tauto.
Qed.

Lemma valid_files_In (root : tree) (y f : string) (df : DataFrame) :
  In (y, f, df) (valid_files root) -> In (y, f, Parsed df) (candidates root).
Proof.
  unfold valid_files, parsed_of. intros Hin. apply in_flat_map in Hin.
  destruct Hin as ([[y0 f0] [df0 | e]] & Hc & Hin); simpl in Hin.
  - destruct Hin as [E | []]. now injection E as <- <- <-.
  - contradiction.
Qed.

(** Every row of the written table carries as Year the name of an entry of
    the root folder, and as Month a text of exactly two characters. *)
Theorem written_rows_tagged (root : tree) (all_data : DataFrame) :
  written (assemble root) = Some all_data ->
  forall r, In r (frame_rows all_data) ->
    exists year month,
      get_column "Year" r = Some year /\ In year (map fst root)
      /\ get_column "Month" r = Some month /\ String.length month = 2%nat.
Proof.
  rewrite assemble_unfold.
  destruct (valid_files root) as [|v vs] eqn:Ev; [discriminate|].
  cbn [written]. intros E r Hr. injection E as <-.
  assert (Hcol : forall c, c = "Year" \/ c = "Month" ->
                   In c (columns (pd_concat (map tagged (v :: vs))))).
  { intros c Hc. apply written_columns. split; [discriminate | tauto]. }
  change (tagged v :: map tagged vs) with (map tagged (v :: vs)) in Hr.
  pose proof (written_rows (v :: vs)) as Hw. cbv zeta in Hw.
  rewrite Hw in Hr. clear Hw.
  apply in_flat_map in Hr. destruct Hr as ([[y f] df] & Hv & Hr).
  rewrite <- Ev in Hv. apply valid_files_In, candidates_In in Hv.
  destruct Hv as [Hy Hf]. cbn [fst snd] in Hr.
  apply in_map_iff in Hr. destruct Hr as (r0 & <- & _).
  exists y, (substring 0 2 f).
  rewrite !reindex_get by (apply Hcol; auto).
  rewrite !tag_row_cell. cbn [String.eqb Ascii.eqb Bool.eqb].
  repeat split; auto.
  apply substring_two. apply endswith_length in Hf. simpl in Hf. lia.
Qed.

Lemma written_rows_tagged_witness :
  Forall (fun r =>
            exists year month,
              get_column "Year" r = Some year /\ In year (map fst one_valid)
              /\ get_column "Month" r = Some month
              /\ String.length month = 2%nat)
         [[("DateTime", "2021-01-01 00:00:00"); ("Total", "1.5");
           ("Year", "2021"); ("Month", "01"); ("Note", "")];
          [("DateTime", "2021-01-01 00:15:00"); ("Total", "2.5");
           ("Year", "2021"); ("Month", "01"); ("Note", "")];
          [("DateTime", "2022-03-01 00:00:00"); ("Total", "3.5");
           ("Year", "2022"); ("Month", "03"); ("Note", "estimated")]].
Proof.
  apply Forall_forall.
  apply (written_rows_tagged one_valid
           (mkFrame ["DateTime"; "Total"; "Year"; "Month"; "Note"]
              [[("DateTime", "2021-01-01 00:00:00"); ("Total", "1.5");
                ("Year", "2021"); ("Month", "01"); ("Note", "")];
               [("DateTime", "2021-01-01 00:15:00"); ("Total", "2.5");
                ("Year", "2021"); ("Month", "01"); ("Note", "")];
               [("DateTime", "2022-03-01 00:00:00"); ("Total", "3.5");
                ("Year", "2022"); ("Month", "03"); ("Note", "estimated")]])).
  reflexivity.
Defined.

Lemma flat_map_all_nil {A B : Type} (f : A -> list B) (l : list A) :
  (forall x, In x l -> f x = []) -> flat_map f l = [].
Proof.
  induction l as [|x l IH]; intros Hf; simpl; [reflexivity|].
  rewrite (Hf x) by now left. apply IH. intros y Hy. apply Hf. now right.
Qed.

(** A file that parses to no row at all still counts as parsed: when the
    valid files are all of that kind the output is written, a header
    without rows. *)
Theorem assemble_header_only (root : tree) :
  valid_files root <> [] ->
  (forall v, In v (valid_files root) -> frame_rows (snd v) = []) ->
  written (assemble root)
  = Some (mkFrame (unique (flat_map columns
                             (map tagged (valid_files root)))) [])
  /\ In "Dataset created successfully!" (printed (assemble root)).
Proof.
  intros Hne Hemp. rewrite assemble_unfold.
  destruct (valid_files root) as [|v vs] eqn:Ev; [congruence|].
  cbn [written printed]. split.
  - f_equal. unfold pd_concat. f_equal.
    rewrite flat_map_concat_map, map_map, <- flat_map_concat_map.
    apply flat_map_all_nil. intros [[y f] df] Hin.
    apply Hemp in Hin. cbn [snd] in Hin. unfold tagged.
    rewrite tag_rows, Hin. reflexivity.
  - apply in_or_app. right. now left.
Qed.

Lemma assemble_header_only_witness :
  written (assemble [("2021", YearDir [("01.csv",
                                        Parsed (mkFrame ["Total"] []))])])
  = Some (mkFrame ["Total"; "Year"; "Month"] [])
  /\ In "Dataset created successfully!"
        (printed (assemble [("2021", YearDir [("01.csv",
                                               Parsed (mkFrame ["Total"] []))])])).
Proof.
  apply (assemble_header_only
           [("2021", YearDir [("01.csv", Parsed (mkFrame ["Total"] []))])]).
  - discriminate.
  - intros v [<- | []]. reflexivity.
Defined.

End AssemblerMore.

(** ** Month names in the monthly grouping (lines 29 and 86) *)

Section Rekey.
Context {K K' : Type} `{Key K} `{Key K'} (g : K -> K').
Hypothesis g_eqb : forall a b, keqb (g a) (g b) = keqb a b.
Hypothesis g_leb : forall a b, kleb (g a) (g b) = kleb a b.

Lemma filter_map_swap {A B : Type} (f : A -> B) (p : B -> bool)
    (l : list A) :
  filter p (map f l) = map f (filter (fun x => p (f x)) l).
Proof.
  induction l as [|x l IH]; simpl; [reflexivity|].
  destruct (p (f x)); simpl; now rewrite IH.
Qed.

Lemma unique_rekey (l : list K) : unique (map g l) = map g (unique l).
Proof.
  induction l as [|x l IH]; simpl; [reflexivity|].
  rewrite IH, filter_map_swap. f_equal. f_equal.
  apply filter_ext. intros y. now rewrite g_eqb.
Qed.

Lemma insert_by_rekey (x : K) (l : list K) :
  insert_by kleb (g x) (map g l) = map g (insert_by kleb x l).
Proof.
  induction l as [|y l IH]; simpl; [reflexivity|].
  rewrite g_leb. destruct (kleb x y); simpl; [reflexivity|].
  now rewrite IH.
Qed.

Lemma sort_by_rekey (l : list K) :
  sort_by kleb (map g l) = map g (sort_by kleb l).
Proof.
  induction l as [|x l IH]; simpl; [reflexivity|].
  now rewrite IH, insert_by_rekey.
Qed.

(** Grouping by a key or by a relabelling of it that keeps equality and
    order gives the same groups, relabelled. *)
Lemma groupby_sum_rekey (key : row -> K) (key' : row -> K')
    (rows : list row) :
  (forall r, In r rows -> key' r = g (key r)) ->
  groupby_sum key' rows
  = map (fun kv => (g (fst kv), snd kv)) (groupby_sum key rows).
Proof.
  intros Hkey. unfold groupby_sum, group_keys.
  rewrite (map_ext_in key' (fun r => g (key r))) by exact Hkey.
  rewrite <- (map_map key g), unique_rekey, sort_by_rekey, !map_map.
  apply map_ext. intros k. simpl. f_equal. f_equal. f_equal.
  unfold group_of. apply filter_ext_in. intros r Hr.
  now rewrite (Hkey r Hr), g_eqb.
Qed.
End Rekey.

Lemma string_leb_refl (s : string) : String.leb s s = true.
Proof. destruct (String.leb_total s s); assumption. Qed.

(** On a table read by [load_data], the monthly series of line 86, grouped
    by (Year, Month, MonthName), is the series grouped by (Year, Month) with
    the name of the month added to each label: the month name neither
    splits nor merges groups. *)
Theorem monthly_data_loaded (file : list csv_row) (year_filter : list year)
    (month_filter : list Z) (day_filter : Z * Z) :
  let fd := filter_data (load_data file) year_filter month_filter
                        day_filter in
  groupby_sum (fun r => (Year r, (Month r, MonthName r))) fd
  = map (fun kv : (year * Z) * Q =>
           ((fst (fst kv), (snd (fst kv), month_name (snd (fst kv)))),
            snd kv))
        (groupby_sum (fun r => (Year r, Month r)) fd).
Proof.
  intros fd.
  apply (groupby_sum_rekey
           (fun k : year * Z => (fst k, (snd k, month_name (snd k))))).
  - intros [y1 m1] [y2 m2]. simpl.
    destruct (Z.eqb m1 m2) eqn:E; simpl.
    + apply Z.eqb_eq in E. subst. now rewrite String.eqb_refl.
    + reflexivity.
  - intros [y1 m1] [y2 m2]. simpl.
    destruct (year_eqb y1 y2); [|reflexivity].
    destruct (Z.eqb m1 m2) eqn:E; simpl; [|reflexivity].
    apply Z.eqb_eq in E. subst. rewrite string_leb_refl.
    symmetry. apply Z.leb_refl.
  - intros r Hr. unfold fd, filter_data in Hr. apply filter_In in Hr.
    destruct Hr as [Hr _]. unfold load_data in Hr. apply in_map_iff in Hr.
    destruct Hr as (c & <- & _). reflexivity.
Qed.

(** ** Instances on the sample table *)



